(** * bflreports: the order dashboard and the ticket dashboard

    A shallow embedding of [dataprocess4.py] (ONDC order dashboard) and
    [ticket_analysis.py] (support-ticket dashboard), followed by the
    properties stated about them.

    Modelling conventions.
    - A pandas [DataFrame] is a finite map from column names to columns of
      cells together with the length of its index; a row handed to a
      function by [df.apply(f, axis=1)] is a finite map from column names
      to cells.  In a table of pandas every column has one entry per index
      label ([wf_frame]).
    - A cell is a missing value ([NaN], [NaT], [None]), a string, a number
      or a timestamp.  Numbers are exact rationals: a float computation of
      the scripts is carried out in exact arithmetic.
    - A [Timestamp] is a count of nanoseconds since the epoch together with
      the UTC offset of its zone, if it has one; the count is not bounded.
    - Python exceptions are values of [exn]; code that can raise returns a
      [result].  Each script works on one table, which its functions
      receive as the parameter [df] and some of them change in place: such
      a function is a computation in the monad [M] over the [world] (the
      table of the script and the page shown so far), in which a raised
      exception keeps the changes made before it.  Tables that a function
      derives for itself ([df[mask]], [pd.DataFrame(...)]) are values.
    - Strings are byte strings and character classes are ASCII.
    - The accessors [.dt] and [.str] are taken on columns of the dtype they
      need; charts are the data they are given. *)

From Stdlib Require Import QArith Qcanon Ascii Lqa.
From stdpp Require Import gmap strings list fin_maps numbers sorting.

Close Scope Q_scope.
Close Scope Qc_scope.
Local Open Scope Z_scope.

(** ** Cells and timestamps *)

Record Timestamp := { value : Z; tzinfo : option Z }.

Inductive cell :=
| NaN
| Str (s : string)
| Num (q : Qc)
| Time (t : Timestamp).

#[global] Instance Timestamp_eq_dec : EqDecision Timestamp.
Proof. solve_decision. Defined.

#[global] Instance cell_eq_dec : EqDecision cell.
Proof. solve_decision. Defined.

(** ** Exceptions *)

Inductive exn :=
| KeyError (key : string)
| AttributeError (msg : string)
| TypeError (msg : string)
| ParserError (msg : string).

Inductive result (A : Type) :=
| Ok (a : A)
| Raise (e : exn).
Arguments Ok {A} a.
Arguments Raise {A} e.

#[global] Instance result_ret : MRet result := @Ok.
#[global] Instance result_bind : MBind result := λ A B f r,
  match r with
  | Ok a => f a
  | Raise e => Raise e
  end.
#[global] Instance result_fmap : FMap result := λ A B f r,
  match r with
  | Ok a => Ok (f a)
  | Raise e => Raise e
  end.

(** [str(e)]: a [KeyError] prints its key between quotes. *)
Definition exn_str (e : exn) : string :=
  match e with
  | KeyError k => "'" +:+ k +:+ "'"
  | AttributeError m => m
  | TypeError m => m
  | ParserError m => m
  end.

(** ** Scalar operations of pandas used by the scripts *)

(** [pd.isna(x)] on a scalar. *)
Definition isna (c : cell) : bool :=
  match c with
  | NaN => true
  | _ => false
  end.

(** [a == b] on scalars; a missing value is equal to nothing. *)
Definition cell_eqb (a b : cell) : bool :=
  match a, b with
  | NaN, _ | _, NaN => false
  | _, _ => bool_decide (a = b)
  end.
Arguments cell_eqb : simpl never.

(** [row[key]] on a row: a label that is not in the row raises. *)
Definition row_getitem (row : gmap string cell) (key : string) : result cell :=
  match row !! key with
  | Some c => Ok c
  | None => Raise (KeyError key)
  end.

(** [x.tzinfo]: only a timestamp has the attribute. *)
Definition get_tzinfo (c : cell) : result (option Z) :=
  match c with
  | Time t => Ok (tzinfo t)
  | _ => Raise (AttributeError "object has no attribute 'tzinfo'")
  end.

(** [ts.tz_localize(None)]: the wall-clock time of [ts], without zone. *)
Definition tz_localize_none (t : Timestamp) : Timestamp :=
  {| value := value t + default 0 (tzinfo t); tzinfo := None |}.

Definition cell_tz_localize_none (c : cell) : result cell :=
  match c with
  | Time t => Ok (Time (tz_localize_none t))
  | _ => Raise (AttributeError "object has no attribute 'tz_localize'")
  end.

(** [a - b] on cells, as used on two timestamps: the [Timedelta] in
    nanoseconds.  Timestamps of which only one has a zone cannot be
    subtracted. *)
Definition cell_sub (a b : cell) : result Z :=
  match a, b with
  | Time ta, Time tb =>
      match tzinfo ta, tzinfo tb with
      | None, None | Some _, Some _ => Ok (value ta - value tb)
      | _, _ => Raise (TypeError "Cannot subtract tz-naive and tz-aware datetime-like objects")
      end
  | _, _ => Raise (TypeError "unsupported operand type(s) for -")
  end.

(** [td.total_seconds()]. *)
Definition total_seconds (td : Z) : Qc := (Qc_of_Z td / Qc_of_Z (10 ^ 9))%Qc.

(** ** dataprocess4.py: the SLA classifier *)

Module Col.
Definition create : string := "Order Create Date & Time".
Definition delivered : string := "Delivered At Date & Time".
Definition shipped : string := "Shipped At Date & Time".
Definition ready : string := "Ready to Ship At Date & Time".
Definition cancelled : string := "Cancelled At Date & Time".
Definition hour : string := "Order Hour".
Definition progress : string := "Progress_Status".
Definition status : string := "Order Status".
Definition category : string := "Order Category".
Definition city : string := "Delivery City".
Definition total_value : string := "Total Order Value".
Definition order_id : string := "Network Order Id".
Definition sla : string := "SLA_Status".
Definition delivery_hours : string := "Delivery Time (Hours)".
End Col.

(** The body of the [try] block of [calculate_sla_status]. *)
Definition sla_try (row : gmap string cell) : result string :=
  c ← row_getitem row Col.create;
  missing ← (if isna c then Ok true
             else d ← row_getitem row Col.delivered; Ok (isna d));
  if (missing : bool) then Ok "NA" else
  create_time ← row_getitem row Col.create;
  deliver_time ← row_getitem row Col.delivered;
  tz ← get_tzinfo create_time;
  create_time ← (if tz is Some _ then cell_tz_localize_none create_time
                 else Ok create_time);
  tz ← get_tzinfo deliver_time;
  deliver_time ← (if tz is Some _ then cell_tz_localize_none deliver_time
                  else Ok deliver_time);
  td ← cell_sub deliver_time create_time;
  let delivery_time := (total_seconds td / Qc_of_Z 3600)%Qc in
  cat ← row_getitem row Col.category;
  threshold ← (if cell_eqb cat (Str "F&B") then Ok 1
               else cat ← row_getitem row Col.category;
                    if cell_eqb cat (Str "Grocery") then Ok 3
                    else Ok (5 * 24));
  Ok (if bool_decide (delivery_time ≤ Qc_of_Z threshold)%Qc
      then "Within SLA" else "SLA Breached").

(** [calculate_sla_status]: any exception of the body gives ['NA'] (the
    handler also prints the exception on the console, which is not part of
    the model). *)
Definition calculate_sla_status (row : gmap string cell) : string :=
  match sla_try row with
  | Ok s => s
  | Raise _ => "NA"
  end.

(** ** Series: the operations on a column *)

(** [s == v] and [s != v], element by element. *)
Definition series_eq (s : list cell) (v : cell) : list bool :=
  (λ c, cell_eqb c v) <$> s.

Definition series_ne (s : list cell) (v : cell) : list bool :=
  (λ c, negb (cell_eqb c v)) <$> s.

(** [s.isin(vs)]. *)
Definition series_isin (s : list cell) (vs : list cell) : list bool :=
  (λ c, existsb (cell_eqb c) vs) <$> s.

(** [mask.sum()]: the number of [True] entries. *)
Definition mask_sum (mask : list bool) : nat :=
  length (filter (λ b, b = true) mask).

(** [mask.mean()]: the share of [True] entries; [None] is the NaN of an
    empty column. *)
Definition mask_mean (mask : list bool) : option Qc :=
  if bool_decide (length mask = 0%nat) then None
  else Some (Qc_of_Z (Z.of_nat (mask_sum mask)) / Qc_of_Z (Z.of_nat (length mask)))%Qc.

(** Selection of the entries of a column under a boolean mask. *)
Fixpoint mask_select {A} (mask : list bool) (l : list A) : list A :=
  match mask, l with
  | b :: mask, x :: l => if b then x :: mask_select mask l else mask_select mask l
  | _, _ => []
  end.

(** [s.dropna()]. *)
Definition dropna (s : list cell) : list cell :=
  filter (λ c, isna c = false) s.

(** [s.unique()]: the distinct values, in order of first appearance. *)
Fixpoint unique (s : list cell) : list cell :=
  match s with
  | [] => []
  | x :: s => x :: filter (λ y, y ≠ x) (unique s)
  end.

(** The number of entries of [s] equal to [v]. *)
Definition occurrences (v : cell) (s : list cell) : nat :=
  length (filter (λ c, c = v) s).

(** The order of [value_counts]: the larger count first. *)
Definition count_ge (p q : cell * nat) : Prop := (q.2 ≤ p.2)%nat.

#[global] Instance count_ge_dec : RelDecision count_ge.
Proof. intros p q. unfold count_ge. apply _. Defined.

(** [s.value_counts()]: each non-missing value with the number of its
    occurrences, the most frequent first (pandas leaves the order among
    equal counts open; the sort used here is stdpp's merge sort). *)
Definition value_counts (s : list cell) : list (cell * nat) :=
  merge_sort count_ge ((λ v, (v, occurrences v s)) <$> unique (dropna s)).

(** The order of index labels used by [sort_index] and [crosstab]:
    numbers by value, strings by their characters, timestamps by their
    instant; labels of different kinds are ordered by kind. *)
Definition cell_rank (c : cell) : nat :=
  match c with
  | NaN => 0
  | Num _ => 1
  | Str _ => 2
  | Time _ => 3
  end.

Definition cell_leb (a b : cell) : bool :=
  match a, b with
  | Num x, Num y => bool_decide (x ≤ y)%Qc
  | Str x, Str y => String.leb x y
  | Time x, Time y => bool_decide (value x ≤ value y)
  | _, _ => bool_decide (cell_rank a ≤ cell_rank b)%nat
  end.

Definition label_le (p q : cell * nat) : Prop := cell_leb p.1 q.1.

Definition cell_le (a b : cell) : Prop := cell_leb a b.

#[global] Instance label_le_dec : RelDecision label_le.
Proof. intros p q. unfold label_le. apply _. Defined.

#[global] Instance cell_le_dec : RelDecision cell_le.
Proof. intros p q. unfold cell_le. apply _. Defined.

(** [s.sort_index()] on the result of [value_counts]. *)
Definition sort_index (vc : list (cell * nat)) : list (cell * nat) :=
  merge_sort label_le vc.

(** [d.get(k)] on a dict given as the list of its items. *)
Fixpoint dict_get {V} (d : list (cell * V)) (k : cell) : option V :=
  match d with
  | [] => None
  | (k', v) :: d => if cell_eqb k k' then Some v else dict_get d k
  end.

(** [s.map(mapping)] with a dict: a value that is no key becomes missing. *)
Definition series_map (mapping : list (cell * cell)) (s : list cell) : list cell :=
  (λ c, default NaN (dict_get mapping c)) <$> s.

(** [s.dt.tz_localize(None)] and [s.dt.hour]. *)
Definition dt_tz_localize_none (s : list cell) : list cell :=
  (λ c, match c with Time t => Time (tz_localize_none t) | _ => NaN end) <$> s.

Definition hour_ns : Z := 3600 * 10 ^ 9.

Definition dt_hour (s : list cell) : list cell :=
  (λ c, match c with
        | Time t => Num (Qc_of_Z (((value t + default 0 (tzinfo t)) `div` hour_ns) `mod` 24))
        | _ => NaN
        end) <$> s.

(** [s.mean()]: the mean of the numbers of the column, missing values
    skipped; [None] is the NaN of a column without numbers. *)
Fixpoint numbers_of (s : list cell) : result (list Qc) :=
  match s with
  | [] => Ok []
  | NaN :: s => numbers_of s
  | Num q :: s => qs ← numbers_of s; Ok (q :: qs)
  | _ :: _ => Raise (TypeError "Could not convert to numeric")
  end.

Definition series_mean (s : list cell) : result (option Qc) :=
  qs ← numbers_of s;
  Ok (if bool_decide (length qs = 0%nat) then None
      else Some (foldr Qcplus (Qc_of_Z 0) qs / Qc_of_Z (Z.of_nat (length qs)))%Qc).

(** Arithmetic of a column with a scalar, [s / n] and [s * n], and
    [s.round(2)] (numpy rounds halves to the even neighbour). *)
Definition series_arith (op : Qc → Qc) (s : list cell) : result (list cell) :=
  mapM (λ c, match c with
             | Num q => Ok (Num (op q))
             | NaN => Ok NaN
             | _ => Raise (TypeError "unsupported operand type(s)")
             end) s.

Definition round_half_even (q : Qc) : Z :=
  let n := Qnum q in
  let d := Zpos (Qden q) in
  let f := n `div` d in
  let r := n `mod` d in
  if bool_decide (2 * r < d) then f
  else if bool_decide (d < 2 * r) then f + 1
  else if Z.even f then f else f + 1.

Definition round2 (q : Qc) : Qc :=
  (Qc_of_Z (round_half_even (q * Qc_of_Z 100)) / Qc_of_Z 100)%Qc.

(** ** DataFrame *)

Record DataFrame := { index_len : nat; columns : gmap string (list cell) }.

(** Every column of a table has one entry per index label. *)
Definition wf_frame (df : DataFrame) : Prop :=
  map_Forall (λ _ col, length col = index_len df) (columns df).

#[global] Instance wf_frame_dec (df : DataFrame) : Decision (wf_frame df).
Proof. unfold wf_frame. apply _. Defined.

(** [pd.DataFrame({...})] from equally long columns. *)
Definition new_frame (n : nat) (cols : list (string * list cell)) : DataFrame :=
  {| index_len := n; columns := list_to_map cols |}.

(** [df[key]]: a missing column label raises [KeyError]. *)
Definition df_getitem (df : DataFrame) (key : string) : result (list cell) :=
  match columns df !! key with
  | Some col => Ok col
  | None => Raise (KeyError key)
  end.

(** [df[key] = col]: adds the column or replaces it. *)
Definition df_setitem (df : DataFrame) (key : string) (col : list cell) : DataFrame :=
  {| index_len := index_len df; columns := <[key := col]> (columns df) |}.

(** [df[mask]]: the rows where the mask holds. *)
Definition df_loc (df : DataFrame) (mask : list bool) : DataFrame :=
  {| index_len := length (mask_select mask (seq 0 (index_len df)));
     columns := mask_select mask <$> columns df |}.

(** [df[[k1, ..., kn]]]: the named columns; a missing one raises. *)
Fixpoint df_select (df : DataFrame) (keys : list string) : result (gmap string (list cell)) :=
  match keys with
  | [] => Ok ∅
  | k :: keys =>
      col ← df_getitem df k;
      rest ← df_select df keys;
      Ok (<[k := col]> rest)
  end.

(** The row at position [i], as [df.apply(f, axis=1)] hands it to [f]. *)
Definition df_row (df : DataFrame) (i : nat) : gmap string cell :=
  (λ col, default NaN (col !! i)) <$> columns df.

(** [df.apply(f, axis=1)]: one result per row (on a table without rows
    pandas gives an empty table instead of an empty column; the model does
    not follow it there). *)
Definition df_apply {A} (f : gmap string cell → A) (df : DataFrame) : list A :=
  (λ i, f (df_row df i)) <$> seq 0 (index_len df).

(** ** Charts and the page *)

Inductive chart :=
| Pie (names : list cell) (values : list nat)
| Bar (x : list cell) (y : list nat)
| GroupedBar (index : list cell) (series : list (cell * list nat)).

Record Layout := { height : option Z; margin : option (Z * Z * Z * Z) }.

Record Figure := { data : chart; title : string; layout : Layout }.

Definition no_layout : Layout := {| height := None; margin := None |}.

(** [px.pie(values=, names=, title=)] and [px.bar(x=, y=, title=)]. *)
Definition px_pie (values : list nat) (names : list cell) (t : string) : Figure :=
  {| data := Pie names values; title := t; layout := no_layout |}.

Definition px_bar (x : list cell) (y : list nat) (t : string) : Figure :=
  {| data := Bar x y; title := t; layout := no_layout |}.

(** [fig.update_layout(height=h, margin=dict(l=, r=, t=, b=))]. *)
Definition update_layout (fig : Figure) (h : Z) (m : Z * Z * Z * Z) : Figure :=
  {| data := data fig; title := title fig;
     layout := {| height := Some h; margin := Some m |} |}.

(** The counts a chart displays. *)
Definition chart_counts (fig : Figure) : list nat :=
  match data fig with
  | Pie _ values => values
  | Bar _ y => y
  | GroupedBar _ series => concat (snd <$> series)
  end.

Inductive metric_value :=
| MInt (n : nat)
| MFloat (x : option Qc).

(** What the scripts put on the page.  Calls that only lay the page out
    ([set_page_config], [title], [subheader], [markdown], [columns]) put
    nothing on the modelled page; the formatting of a number or of a label
    into text is left to the widget. *)
Inductive widget :=
| Metric (label : string) (v : metric_value)
| PlotlyChart (fig : Figure)
| Table (df : DataFrame)
| TableColumns (cols : gmap string (list cell))
| Write (parts : list cell)
| ErrorBox (msg : string)
| InfoBox (msg : string).

(** ** The table in memory and the page: the state of a script run *)

Record world := { frame : DataFrame; page : list widget }.

Definition M (A : Type) : Type := world → result A * world.

#[global] Instance M_ret : MRet M := λ A a w, (Ok a, w).
#[global] Instance M_bind : MBind M := λ A B f m w,
  match m w with
  | (Ok a, w') => f a w'
  | (Raise e, w') => (Raise e, w')
  end.

(** A computation that may raise but touches neither table nor page. *)
Definition liftR {A} (r : result A) : M A := λ w, (r, w).

(** The table [df] of the script. *)
Definition get_frame : M DataFrame := λ w, (Ok (frame w), w).

Definition put_frame (df : DataFrame) : M () :=
  λ w, (Ok (), {| frame := df; page := page w |}).

(** [df[key]], [df[key] = col] and [len(df)] on the table of the script. *)
Definition getitem (key : string) : M (list cell) :=
  λ w, (df_getitem (frame w) key, w).

Definition setitem (key : string) (col : list cell) : M () :=
  λ w, (Ok (), {| frame := df_setitem (frame w) key col; page := page w |}).

Definition len : M nat := λ w, (Ok (index_len (frame w)), w).

(** A streamlit call that shows a widget. *)
Definition st (wd : widget) : M () :=
  λ w, (Ok (), {| frame := frame w; page := page w ++ [wd] |}).

(** [try: body except Exception as e: handler(e)]. *)
Definition try_except {A} (body : M A) (handler : exn → M A) : M A :=
  λ w, match body w with
       | (Ok a, w') => (Ok a, w')
       | (Raise e, w') => handler e w'
       end.

(** [for x in xs: acc = body(acc, x)]. *)
Fixpoint for_fold {A B} (body : B → A → M B) (acc : B) (xs : list A) : M B :=
  match xs with
  | [] => mret acc
  | x :: xs => acc ← body acc x; for_fold body acc xs
  end.

(** ** dataprocess4.py *)

Section loader.
(** [pd.to_datetime(x, format='%d-%m-%Y %H:%M', errors='coerce')] and
    [pd.to_datetime(x, errors='coerce')] on one entry: the parsing of
    dates belongs to pandas; [None] is the [NaT] of an entry that does
    not parse. *)
Variable to_datetime_dmy : cell → option Timestamp.
Variable to_datetime_iso : cell → option Timestamp.

Definition to_datetime (parse : cell → option Timestamp) (s : list cell) : list cell :=
  (λ c, match parse c with Some t => Time t | None => NaN end) <$> s.

Definition status_mapping : list (cell * cell) :=
  [(Str "Completed", Num (Qc_of_Z 100));
   (Str "In-progress", Num (Qc_of_Z 75));
   (Str "Accepted", Num (Qc_of_Z 25))].

(** [load_and_process_data], on the table that [pd.read_csv] returns. *)
Definition load_and_process_data (csv : DataFrame) : result DataFrame :=
  let df := csv in
  c ← df_getitem df Col.create;
  let df := df_setitem df Col.create (to_datetime to_datetime_dmy c) in
  c ← df_getitem df Col.delivered;
  let df := df_setitem df Col.delivered (dt_tz_localize_none (to_datetime to_datetime_iso c)) in
  c ← df_getitem df Col.shipped;
  let df := df_setitem df Col.shipped (dt_tz_localize_none (to_datetime to_datetime_iso c)) in
  c ← df_getitem df Col.ready;
  let df := df_setitem df Col.ready (dt_tz_localize_none (to_datetime to_datetime_iso c)) in
  c ← df_getitem df Col.cancelled;
  let df := df_setitem df Col.cancelled (dt_tz_localize_none (to_datetime to_datetime_iso c)) in
  c ← df_getitem df Col.create;
  let df := df_setitem df Col.hour (dt_hour c) in
  c ← df_getitem df Col.status;
  let df := df_setitem df Col.progress (series_map status_mapping c) in
  Ok df.
End loader.

(** A Python dict, in insertion order: [d[k] = v]. *)
Fixpoint dict_set {V} (d : list (cell * V)) (k : cell) (v : V) : list (cell * V) :=
  match d with
  | [] => [(k, v)]
  | (k', v') :: d => if bool_decide (k' = k) then (k, v) :: d else (k', v') :: dict_set d k v
  end.

(** The body of the loop of [create_sla_summary]. *)
Definition sla_summary_step (sla_summaries : list (cell * DataFrame)) (category : cell)
  : M (list (cell * DataFrame)) :=
  cat ← getitem Col.category;
  df ← get_frame;
  let category_df := df_loc df (series_eq cat category) in
  if bool_decide (0 < index_len category_df)%nat then
    s ← liftR (df_getitem category_df Col.sla);
    let valid_orders := df_loc category_df (series_ne s (Str "NA")) in
    if bool_decide (0 < index_len valid_orders)%nat then
      s ← liftR (df_getitem valid_orders Col.sla);
      let within := index_len (df_loc valid_orders (series_eq s (Str "Within SLA"))) in
      s ← liftR (df_getitem valid_orders Col.sla);
      let breached := index_len (df_loc valid_orders (series_eq s (Str "SLA Breached"))) in
      let sla_summary :=
        new_frame 2 [("Status", [Str "Within SLA"; Str "SLA Breached"]);
                     ("Count", [Num (Qc_of_Z (Z.of_nat within));
                                Num (Qc_of_Z (Z.of_nat breached))])] in
      count ← liftR (df_getitem sla_summary "Count");
      let n := Qc_of_Z (Z.of_nat (index_len valid_orders)) in
      ratio ← liftR (series_arith (λ q, q / n)%Qc count);
      pct ← liftR (series_arith (λ q, q * Qc_of_Z 100)%Qc ratio);
      pct ← liftR (series_arith round2 pct);
      let sla_summary := df_setitem sla_summary "Percentage" pct in
      mret (dict_set sla_summaries category sla_summary)
    else mret sla_summaries
  else mret sla_summaries.

(** [create_sla_summary(df)]: the SLA summary table of each category. *)
Definition create_sla_summary : M (list (cell * DataFrame)) :=
  df ← get_frame;
  setitem Col.sla (Str <$> df_apply calculate_sla_status df);;
  cat ← getitem Col.category;
  let categories := unique cat in
  for_fold sla_summary_step [] categories.

(** [pd.crosstab(a, b)]: for each label of [a] (sorted) the number of rows
    with each label of [b] (sorted); rows with a missing value count for
    nothing. *)
Definition crosstab (a b : list cell) : list cell * list (cell * list nat) :=
  let index := merge_sort cell_le (unique (dropna a)) in
  let cols := merge_sort cell_le (unique (dropna b)) in
  (index,
   (λ cb, (cb, (λ ca, length (filter (λ p, p = (ca, cb)) (zip a b))) <$> index)) <$> cols).

(** [create_sla_charts(df)] (the second definition of the file, which
    replaces the first). *)
Definition create_sla_charts : M (Figure * Figure) :=
  df ← get_frame;
  setitem Col.sla (Str <$> df_apply calculate_sla_status df);;
  s ← getitem Col.sla;
  df ← get_frame;
  let valid_sla := df_loc df (series_ne s (Str "NA")) in
  names ← liftR (df_getitem valid_sla Col.sla);
  let fig_overall :=
    {| data := Pie names ((λ _, 1%nat) <$> names);
       title := "Overall SLA Performance"; layout := no_layout |} in
  let fig_overall := update_layout fig_overall 400 (20, 20, 40, 20) in
  cat ← getitem Col.category;
  s ← getitem Col.sla;
  let category_sla := crosstab cat s in
  let fig_category :=
    {| data := GroupedBar category_sla.1 category_sla.2;
       title := "Category-wise SLA Performance"; layout := no_layout |} in
  let fig_category := update_layout fig_category 400 (20, 20, 40, 20) in
  mret (fig_overall, fig_category).

Definition create_hourly_sop_tracker : M Figure :=
  h ← getitem Col.hour;
  let hourly_orders := sort_index (value_counts h) in
  let fig := px_bar hourly_orders.*1 hourly_orders.*2 "Hourly Order Distribution" in
  mret (update_layout fig 400 (20, 20, 40, 20)).

Definition create_ticket_status_tracker : M Figure :=
  s ← getitem Col.status;
  let status_counts := value_counts s in
  let fig := px_pie status_counts.*2 status_counts.*1 "Order Status Distribution" in
  mret (update_layout fig 400 (20, 20, 40, 20)).

Definition create_category_summary : M Figure :=
  s ← getitem Col.category;
  let category_summary := value_counts s in
  let fig := px_bar category_summary.*1 category_summary.*2 "Orders by Category" in
  mret (update_layout fig 400 (20, 20, 40, 20)).

Definition create_city_summary : M Figure :=
  s ← getitem Col.city;
  let city_summary := value_counts s in
  let fig := px_pie city_summary.*2 city_summary.*1 "Orders by City" in
  mret (update_layout fig 400 (20, 20, 40, 20)).

(** [(a - b).dt.total_seconds() / 3600] on two columns of timestamps: a
    missing timestamp gives a missing difference. *)
Definition series_hours_between (a b : list cell) : result (list cell) :=
  mapM (λ p : cell * cell,
          match p with
          | (NaN, _) | (_, NaN) => Ok NaN
          | (x, y) => td ← cell_sub x y; Ok (Num (total_seconds td / Qc_of_Z 3600)%Qc)
          end) (zip a b).

Section dataprocess4_main.
Variable to_datetime_dmy : cell → option Timestamp.
Variable to_datetime_iso : cell → option Timestamp.

(** The part of [main] that shows the rows in breach. *)
Definition sla_breach_details : M () :=
  s ← getitem Col.sla;
  df ← get_frame;
  let breached_orders := df_loc df (series_eq s (Str "SLA Breached")) in
  if bool_decide (0 < index_len breached_orders)%nat then
    d ← liftR (df_getitem breached_orders Col.delivered);
    c ← liftR (df_getitem breached_orders Col.create);
    h ← liftR (series_hours_between d c);
    let breached_orders := df_setitem breached_orders Col.delivery_hours h in
    cols ← liftR (df_select breached_orders
                    [Col.order_id; Col.category; Col.create; Col.delivered;
                     Col.delivery_hours; Col.city]);
    st (TableColumns cols)
  else st (Write [Str "No SLA breaches found"]).

(** [main] of dataprocess4.py; [uploaded_file] is the table read from the
    uploaded file, if one was uploaded. *)
Definition dataprocess4_main (uploaded_file : option DataFrame) : M () :=
  match uploaded_file with
  | Some csv =>
      df ← liftR (load_and_process_data to_datetime_dmy to_datetime_iso csv);
      put_frame df;;
      n ← len;
      st (Metric "Total Orders" (MInt n));;
      s ← getitem Col.status;
      st (Metric "Completion Rate"
            (MFloat ((λ x, x * Qc_of_Z 100)%Qc <$> mask_mean (series_eq s (Str "Completed")))));;
      s ← getitem Col.status;
      df ← get_frame;
      st (Metric "Active Orders"
            (MInt (index_len (df_loc df (series_isin s [Str "In-progress"; Str "Accepted"])))));;
      v ← getitem Col.total_value;
      avg ← liftR (series_mean v);
      st (Metric "Avg Order Value" (MFloat avg));;
      fig ← create_hourly_sop_tracker; st (PlotlyChart fig);;
      fig ← create_ticket_status_tracker; st (PlotlyChart fig);;
      fig ← create_category_summary; st (PlotlyChart fig);;
      fig ← create_city_summary; st (PlotlyChart fig);;
      sla_summaries ← create_sla_summary;
      for_fold (λ _ (item : cell * DataFrame),
                  st (Write [item.1; Str " SLA Performance"]);;
                  st (Table item.2))
               () sla_summaries;;
      figs ← create_sla_charts;
      st (PlotlyChart figs.1);;
      st (PlotlyChart figs.2);;
      sla_breach_details
  | None => mret ()
  end.
End dataprocess4_main.

(** ** ticket_analysis.py *)

(** *** Regular expressions, as far as the two patterns of the script go *)

Inductive class_item :=
| Ch (c : ascii)
| Word.

Inductive regex :=
| Eps
| Lit (c : ascii)
| Class (items : list class_item)
| Cat (r1 r2 : regex)
| Alt (r1 r2 : regex)
| Plus (r : regex)
| Group (r : regex).

Definition in_range (lo hi c : ascii) : bool :=
  (nat_of_ascii lo <=? nat_of_ascii c)%nat && (nat_of_ascii c <=? nat_of_ascii hi)%nat.

(** [\w]. *)
Definition is_word (c : ascii) : bool :=
  in_range "a" "z" c || in_range "A" "Z" c || in_range "0" "9" c
  || bool_decide (c = "_"%char).

Definition lower (c : ascii) : ascii :=
  if in_range "A" "Z" c then ascii_of_nat (nat_of_ascii c + 32) else c.

(** Equality of characters, under [re.IGNORECASE] when [ic] is set. *)
Definition char_eqb (ic : bool) (a b : ascii) : bool :=
  if ic then bool_decide (lower a = lower b) else bool_decide (a = b).

Definition item_match (ic : bool) (c : ascii) (i : class_item) : bool :=
  match i with
  | Ch a => char_eqb ic a c
  | Word => is_word c
  end.

Section matcher.
Context {X : Type}.

(** The continuation of a match: the rest of the subject and group 1. *)
Definition cont : Type := string → option string → option X.

(** [r+], greedy: as many rounds of [step] as succeed, one less when the
    continuation fails. *)
Fixpoint plus_loop (fuel : nat) (step : string → option string → cont → option X)
    (s : string) (g : option string) (k : cont) : option X :=
  match fuel with
  | O => None
  | S fuel =>
      step s g (λ s' g',
        match (if bool_decide (String.length s' < String.length s)%nat
               then plus_loop fuel step s' g' k else None) with
        | Some x => Some x
        | None => k s' g'
        end)
  end.

(** Backtracking match of [r] at the start of [s]. *)
Fixpoint rmatch (ic : bool) (r : regex) (s : string) (g : option string) (k : cont)
    : option X :=
  match r with
  | Eps => k s g
  | Lit c =>
      match s with
      | String c' s' => if char_eqb ic c c' then k s' g else None
      | EmptyString => None
      end
  | Class items =>
      match s with
      | String c' s' => if existsb (item_match ic c') items then k s' g else None
      | EmptyString => None
      end
  | Cat r1 r2 => rmatch ic r1 s g (λ s' g', rmatch ic r2 s' g' k)
  | Alt r1 r2 =>
      match rmatch ic r1 s g k with
      | Some x => Some x
      | None => rmatch ic r2 s g k
      end
  | Plus r => plus_loop (S (String.length s)) (rmatch ic r) s g k
  | Group r =>
      rmatch ic r s g
        (λ s' _, k s' (Some (String.substring 0 (String.length s - String.length s') s)))
  end.
End matcher.

(** [re.search(r, s)]: the leftmost match; the result of a match is its
    group 1. *)
Fixpoint re_search (ic : bool) (r : regex) (s : string) : option (option string) :=
  match rmatch ic r s None (λ _ g, Some g) with
  | Some g => Some g
  | None =>
      match s with
      | EmptyString => None
      | String _ s' => re_search ic r s'
      end
  end.

(** A literal, character by character. *)
Fixpoint lit (s : string) : regex :=
  match s with
  | EmptyString => Eps
  | String c s' => Cat (Lit c) (lit s')
  end.

(** The pattern [@([\w.-]+)]. *)
Definition email_re : regex :=
  Cat (Lit "@") (Group (Plus (Class [Word; Ch "."; Ch "-"]))).

(** The pattern [order|Order|OID]. *)
Definition order_re : regex :=
  Alt (lit "order") (Alt (lit "Order") (lit "OID")).

(** *** The script *)

Definition extract_email_domain (email : cell) : result cell :=
  if isna email then Ok (Str "Unknown") else
  match email with
  | Str s =>
      match re_search false email_re s with
      | Some g => Ok (match g with Some d => Str d | None => NaN end)
      | None => Ok (Str "Unknown")
      end
  | _ => Raise (TypeError "expected string or bytes-like object")
  end.

(** [s.str.contains(pat, case=, na=)] and [s.str.startswith(p, na=)]: an
    entry that is no string takes the value [na]. *)
Definition str_contains (pat : regex) (case na : bool) (s : list cell) : list bool :=
  (λ c, match c with
        | Str x => bool_decide (is_Some (re_search (negb case) pat x))
        | _ => na
        end) <$> s.

Definition str_startswith (p : string) (na : bool) (s : list cell) : list bool :=
  (λ c, match c with
        | Str x => String.prefix p x
        | _ => na
        end) <$> s.

Definition analyze_tickets : M () :=
  c ← getitem "Contact ID";
  d ← liftR (mapM extract_email_domain c);
  setitem "Email Domain" d;;
  n ← len;
  st (Metric "Total Tickets" (MInt n));;
  s ← getitem "Status";
  df ← get_frame;
  st (Metric "Open Tickets" (MInt (index_len (df_loc df (series_eq s (Str "Open"))))));;
  s ← getitem "Status";
  df ← get_frame;
  st (Metric "Waiting Tickets"
        (MInt (index_len (df_loc df (series_eq s (Str "Waiting on Third Party"))))));;
  s ← getitem "Status";
  let status_dist := value_counts s in
  st (PlotlyChart (px_pie status_dist.*2 status_dist.*1 "Ticket Status Distribution"));;
  d ← getitem "Email Domain";
  let domain_counts := take 10 (value_counts d) in
  st (PlotlyChart (px_bar domain_counts.*1 domain_counts.*2 "Top 10 Email Domains"));;
  s ← getitem "Subject";
  let order_related := mask_sum (str_contains order_re false false s) in
  s ← getitem "Subject";
  let fwd_tickets := mask_sum (str_startswith "Fwd:" false s) in
  st (PlotlyChart (px_bar [Str "Order Related"; Str "Forwarded Tickets"]
                          [order_related; fwd_tickets] "Common Ticket Patterns"));;
  df ← get_frame;
  st (Table df).

(** [main] of ticket_analysis.py; [uploaded_file] is what [pd.read_csv]
    makes of the uploaded file, if one was uploaded: a table or an
    exception. *)
Definition ticket_analysis_main (uploaded_file : option (result DataFrame)) : M () :=
  match uploaded_file with
  | Some read_csv =>
      try_except
        (df ← liftR read_csv;
         put_frame df;;
         analyze_tickets)
        (λ e, st (ErrorBox ("Error reading the file: " +:+ exn_str e)))
  | None => st (InfoBox "Please upload a CSV file to begin analysis")
  end.

(** ** Notions used to state the properties *)

(** The wall-clock reading of a timestamp, in nanoseconds. *)
Definition wall_clock (t : Timestamp) : Z := value t + default 0 (tzinfo t).

(** Hours elapsed from creation [c] to delivery [d]. *)
Definition elapsed_hours (c d : Timestamp) : Qc :=
  (total_seconds (wall_clock d - wall_clock c) / Qc_of_Z 3600)%Qc.

(** The SLA threshold of a category, in hours, as the specification
    gives it. *)
Definition sla_threshold (cat : cell) : Z :=
  if decide (cat = Str "F&B") then 1
  else if decide (cat = Str "Grocery") then 3
  else 120.

(** A timestamp without zone, and a row of an order table. *)
Definition naive (v : Z) : cell := Time {| value := v; tzinfo := None |}.

Definition order_row (created delivered category : cell) : gmap string cell :=
  {[ Col.create := created; Col.delivered := delivered; Col.category := category ]}.

(** The rows of an order table, each as its category and its SLA status,
    and the statuses of the rows of one category. *)
Definition sla_rows (df : DataFrame) (cat : list cell) : list (cell * string) :=
  zip cat (df_apply calculate_sla_status df).

Definition statuses_of (k : cell) (rows : list (cell * string)) : list string :=
  (filter (λ p, cell_eqb p.1 k = true) rows).*2.

Definition valid_count (k : cell) (rows : list (cell * string)) : nat :=
  length (filter (λ s, s ≠ "NA") (statuses_of k rows)).

Definition status_count (st : string) (k : cell) (rows : list (cell * string)) : nat :=
  length (filter (λ s, s = st) (statuses_of k rows)).

(** The share of [count] rows among [n], in percent, to two decimals. *)
Definition percentage (count n : nat) : Qc :=
  round2 (Qc_of_Z (Z.of_nat count) / Qc_of_Z (Z.of_nat n) * Qc_of_Z 100)%Qc.

(** The summary table of a category with [within] rows within the SLA and
    [breached] rows in breach among [n] valid rows. *)
Definition sla_table (within breached n : nat) : DataFrame :=
  df_setitem
    (new_frame 2 [("Status", [Str "Within SLA"; Str "SLA Breached"]);
                  ("Count", [Num (Qc_of_Z (Z.of_nat within));
                             Num (Qc_of_Z (Z.of_nat breached))])])
    "Percentage" [Num (percentage within n); Num (percentage breached n)].

(** What one round of the loop of [create_sla_summary] does to the dict. *)
Definition summary_step (rows : list (cell * string))
    (acc : list (cell * DataFrame)) (k : cell) : list (cell * DataFrame) :=
  if bool_decide (0 < valid_count k rows)%nat
  then dict_set acc k (sla_table (status_count "Within SLA" k rows)
                                 (status_count "SLA Breached" k rows)
                                 (valid_count k rows))
  else acc.

(** The table after [create_sla_summary] or [create_sla_charts]. *)
Definition with_sla_status (df : DataFrame) : DataFrame :=
  df_setitem df Col.sla (Str <$> df_apply calculate_sla_status df).

(** A small order table: two F&B orders, one on time and one late, a
    Grocery order without creation time and an order without category. *)
Definition sample_orders : DataFrame :=
  new_frame 4
    [(Col.create, [naive 0; naive 0; NaN; naive 0]);
     (Col.delivered, [naive hour_ns; naive (hour_ns + 1); naive 5; naive 7]);
     (Col.category, [Str "F&B"; Str "F&B"; Str "Grocery"; NaN]);
     (Col.status, [Str "Completed"; Str "Completed"; Str "Accepted"; NaN]);
     (Col.city, [Str "Pune"; NaN; Str "Pune"; Str "Delhi"])].

Definition sample_world : world := {| frame := sample_orders; page := [] |}.

(** An entry of a text column: a string or a missing value. *)
Definition is_text (c : cell) : Prop :=
  match c with
  | NaN | Str _ => True
  | _ => False
  end.

(** The ticket table after [analyze_tickets] and what the function shows
    before it looks at the subjects. *)
Definition with_email_domain (df : DataFrame) (domains : list cell) : DataFrame :=
  df_setitem df "Email Domain" domains.

Definition ticket_status_chart (status : list cell) : Figure :=
  px_pie (value_counts status).*2 (value_counts status).*1 "Ticket Status Distribution".

Definition ticket_overview (df : DataFrame) (status domains : list cell) : list widget :=
  [Metric "Total Tickets" (MInt (index_len df));
   Metric "Open Tickets" (MInt (index_len (df_loc df (series_eq status (Str "Open")))));
   Metric "Waiting Tickets"
     (MInt (index_len (df_loc df (series_eq status (Str "Waiting on Third Party")))));
   PlotlyChart (ticket_status_chart status);
   PlotlyChart (px_bar (take 10 (value_counts domains)).*1
                       (take 10 (value_counts domains)).*2 "Top 10 Email Domains")].

(** The chart of the two pattern counts. *)
Definition pattern_chart (order_related fwd_tickets : nat) : Figure :=
  px_bar [Str "Order Related"; Str "Forwarded Tickets"]
         [order_related; fwd_tickets] "Common Ticket Patterns".

(** A subject is order-related when it is a string in which the pattern
    [order|Order|OID] is found, letter case ignored. *)
Definition order_related (c : cell) : Prop :=
  ∃ s, c = Str s ∧ is_Some (re_search true order_re s).

#[global] Instance order_related_dec (c : cell) : Decision (order_related c).
Proof.
  unfold order_related. destruct c as [|s| |];
    try (right; intros [s' [Heq _]]; discriminate Heq).
  destruct (decide (is_Some (re_search true order_re s))) as [H|H].
  - left. eauto.
  - right. intros [s' [Heq Hs]]. injection Heq as <-. done.
Defined.

(** [p] is at the start of [s], and [p] occurs in [s], letter case
    ignored. *)
Fixpoint prefix_ci (p s : string) : bool :=
  match p, s with
  | EmptyString, _ => true
  | String a p', String c s' => bool_decide (lower a = lower c) && prefix_ci p' s'
  | String _ _, EmptyString => false
  end.

Fixpoint contains_ci (p s : string) : bool :=
  prefix_ci p s ||
  match s with
  | EmptyString => false
  | String _ s' => contains_ci p s'
  end.

(** A small ticket table. *)
Definition sample_tickets : DataFrame :=
  new_frame 4
    [("Contact ID", [Str "user@example.com"; NaN; Str "ops@shop.in"; Str "no address"]);
     ("Status", [Str "Open"; Str "Closed"; NaN; Str "Open"]);
     ("Subject", [Str "Please void my invoice"; NaN; Str "Fwd: ORDER delayed"; Str "Hello"])].

Definition sample_ticket_world : world := {| frame := sample_tickets; page := [] |}.

(** A computation that only reads: it leaves the table and the page as
    they are; and one that may show widgets but leaves the table alone. *)
Definition reads_only {A} (m : M A) : Prop := ∀ w, (m w).2 = w.

Definition keeps_frame {A} (m : M A) : Prop := ∀ w, frame (m w).2 = frame w.

(** A computation driven by the table alone: on two states with the same
    table it gives the same result, the same table and shows the same
    widgets. *)
Definition table_driven {A} (m : M A) : Prop :=
  ∀ w w', frame w = frame w' →
    (m w).1 = (m w').1 ∧
    frame (m w).2 = frame (m w').2 ∧
    ∃ shown, page (m w).2 = page w ++ shown ∧ page (m w').2 = page w' ++ shown.

(** The columns read by the loader, by the order script as a whole before
    the SLA analysis, and by the ticket script. *)
Definition loader_columns : list string :=
  [Col.create; Col.delivered; Col.shipped; Col.ready; Col.cancelled; Col.status].

Definition order_columns : list string :=
  loader_columns ++ [Col.total_value; Col.category; Col.city].

Definition ticket_columns : list string := ["Contact ID"; "Status"; "Subject"].

(** The exceptions of a run on a table without one of its columns: the
    lookup failure for a column that the table lacks, or a type error of an
    operation on the entries of a column. *)
Definition lookup_or_type_failure (df : DataFrame) (e : exn) : Prop :=
  (∃ k, e = KeyError k ∧ columns df !! k = None) ∨ (∃ msg, e = TypeError msg).

(** A computation that raises such an exception on every table without the
    column [k], and one that leaves the table alone and raises nothing
    else. *)
Definition fails_without {A} (k : string) (m : M A) : Prop :=
  ∀ w, columns (frame w) !! k = None →
       ∃ e, (m w).1 = Raise e ∧ lookup_or_type_failure (frame w) e.

Definition plain_step {A} (m : M A) : Prop :=
  keeps_frame m ∧ ∀ w e, (m w).1 = Raise e → lookup_or_type_failure (frame w) e.

(** The sample tickets without the column of subjects. *)
Definition tickets_without_subject : DataFrame :=
  new_frame 2
    [("Contact ID", [Str "user@example.com"; NaN]);
     ("Status", [Str "Open"; Str "Closed"])].

(** The columns that the loader writes. *)
Definition loader_written : list string :=
  [Col.create; Col.delivered; Col.shipped; Col.ready; Col.cancelled; Col.hour; Col.progress].

(** A missing entry or a timestamp without zone. *)
Definition naive_or_missing (c : cell) : Prop := c = NaN ∨ ∃ v, c = naive v.

(** What the loader derives from a creation time. *)
Definition hour_of (created hour : cell) : Prop :=
  (created = NaN ∧ hour = NaN) ∨
  (∃ t day h rest,
     created = Time t ∧ hour = Num (Qc_of_Z h) ∧ 0 ≤ h < 24 ∧ 0 ≤ rest < hour_ns ∧
     wall_clock t = day * (24 * hour_ns) + h * hour_ns + rest).

(** A table as read from a file of orders, with its dates as text, and a
    reading of the dates of this table. *)
Definition sample_csv : DataFrame :=
  new_frame 3
    [(Col.create, [Str "01-01-1970 10:30"; Str "01-01-1970 23:59"; Str "soon"]);
     (Col.delivered, [Str "1970-01-01T11:00:00.000Z"; NaN; NaN]);
     (Col.shipped, [NaN; NaN; NaN]);
     (Col.ready, [NaN; NaN; NaN]);
     (Col.cancelled, [NaN; NaN; NaN]);
     (Col.status, [Str "Completed"; Str "Accepted"; Str "Cancelled"]);
     (Col.category, [Str "F&B"; Str "Grocery"; Str "F&B"]);
     (Col.city, [Str "Pune"; Str "Pune"; NaN]);
     (Col.total_value, [Num (Qc_of_Z 100); Num (Qc_of_Z 250); NaN])].

Definition minute_ns : Z := 60 * 10 ^ 9.

Definition sample_dmy (c : cell) : option Timestamp :=
  if decide (c = Str "01-01-1970 10:30")
  then Some {| value := 10 * hour_ns + 30 * minute_ns; tzinfo := None |}
  else if decide (c = Str "01-01-1970 23:59")
  then Some {| value := 23 * hour_ns + 59 * minute_ns; tzinfo := None |}
  else None.

Definition sample_iso (c : cell) : option Timestamp :=
  if decide (c = Str "1970-01-01T11:00:00.000Z")
  then Some {| value := 11 * hour_ns; tzinfo := Some 0 |}
  else None.

(** [labels] with [counts] is the distribution of the values of a column:
    each value that occurs, once, with the number of its occurrences. *)
Definition distribution_of (col labels : list cell) (counts : list nat) : Prop :=
  NoDup labels ∧
  (∀ v, v ∈ labels ↔ v ∈ col ∧ v ≠ NaN) ∧
  length labels = length counts ∧
  (∀ i v n, labels !! i = Some v → counts !! i = Some n →
            n = occurrences v col ∧ (0 < n)%nat).

(** A character of a domain as the script reads it: a word character, a
    dot or a hyphen. *)
Definition domain_char (c : ascii) : bool :=
  is_word c || bool_decide (c = "."%char) || bool_decide (c = "-"%char).

(** The longest run of domain characters at the start of [s], and what
    follows it. *)
Fixpoint take_domain (s : string) : string :=
  match s with
  | String c s' => if domain_char c then String c (take_domain s') else EmptyString
  | EmptyString => EmptyString
  end.

Fixpoint skip_domain (s : string) : string :=
  match s with
  | String c s' => if domain_char c then skip_domain s' else s
  | EmptyString => EmptyString
  end.

(** The run of domain characters behind the first ['@'] of [s] that has a
    domain character behind it. *)
Fixpoint domain_after_at (s : string) : option string :=
  match s with
  | String c s' =>
      if bool_decide (c = "@"%char) && negb (bool_decide (take_domain s' = EmptyString))
      then Some (take_domain s')
      else domain_after_at s'
  | EmptyString => None
  end.

(** A name that can stand in the column of domains: not empty, domain
    characters only. *)
Definition domain_name (c : cell) : Prop :=
  ∃ d, c = Str d ∧ d ≠ EmptyString ∧
       Forall (λ a, domain_char a = true) (String.list_ascii_of_string d).

(** The rows of an order table that are in breach of their SLA, as a
    mask over the rows, and the columns of the table of breach details. *)
Definition in_breach (df : DataFrame) : list bool :=
  (λ s, bool_decide (s = "SLA Breached")) <$> df_apply calculate_sla_status df.

Definition breach_columns : list string :=
  [Col.order_id; Col.category; Col.create; Col.delivered; Col.delivery_hours; Col.city].

(** A delivery time, in hours, beyond the threshold of a category. *)
Definition beyond_sla (category hours : cell) : Prop :=
  ∃ q, hours = Num q ∧ (Qc_of_Z (sla_threshold category) < q)%Qc.

(** The sample orders with their identifiers. *)
Definition sample_orders_with_ids : DataFrame :=
  df_setitem sample_orders Col.order_id [Str "A1"; Str "A2"; Str "A3"; Str "A4"].

(** An entry of a column of numbers, and the columns that a full run of
    the order dashboard reads. *)
Definition numeric (c : cell) : Prop := c = NaN ∨ ∃ q, c = Num q.

Definition dashboard_columns : list string := order_columns ++ [Col.order_id].

(** The statuses counted as active, and the completion rate of [completed]
    orders among [n]. *)
Definition active_status (c : cell) : Prop := c = Str "In-progress" ∨ c = Str "Accepted".

#[global] Instance active_status_dec (c : cell) : Decision (active_status c).
Proof. unfold active_status. apply _. Defined.

Definition completion_rate (completed n : nat) : option Qc :=
  if bool_decide (n = 0%nat) then None
  else Some (Qc_of_Z (Z.of_nat completed) / Qc_of_Z (Z.of_nat n) * Qc_of_Z 100)%Qc.

(** What [main] shows for the SLA summaries. *)
Definition summary_widgets (summaries : list (cell * DataFrame)) : list widget :=
  concat ((λ item : cell * DataFrame,
             [Write [item.1; Str " SLA Performance"]; Table item.2]) <$> summaries).

(** The sample file with order identifiers. *)
Definition sample_csv_with_ids : DataFrame :=
  df_setitem sample_csv Col.order_id [Str "A1"; Str "A2"; Str "A3"].

(** A subject of a forwarded ticket: a string that starts with ['Fwd:']. *)
Definition forwarded (c : cell) : Prop := ∃ rest, c = Str ("Fwd:" +:+ rest).

#[global] Instance forwarded_dec (c : cell) : Decision (forwarded c).
Proof.
  unfold forwarded. destruct c as [|x|q|t];
    try (right; intros [rest Heq]; discriminate Heq).
  destruct x as [|c1 [|c2 [|c3 [|c4 r]]]];
    try (right; intros [rest Heq]; simpl in Heq; discriminate Heq).
  destruct (decide (c1 = "F"%char ∧ c2 = "w"%char ∧ c3 = "d"%char ∧ c4 = ":"%char))
    as [[-> [-> [-> ->]]]|Hne].
  - left. by exists r.
  - right. intros [rest Heq]. simpl in Heq. injection Heq as -> -> -> -> _. by apply Hne.
Defined.

(** * Properties *)

(** ** The SLA classifier *)

Lemma elapsed_hours_ns (c d : Timestamp) :
  elapsed_hours c d = (Qc_of_Z (wall_clock d - wall_clock c) / Qc_of_Z hour_ns)%Qc.
Proof.
  unfold elapsed_hours, total_seconds.
  replace (Qc_of_Z hour_ns) with (Qc_of_Z (10 ^ 9) * Qc_of_Z 3600)%Qc
    by (apply Qc_is_canon; reflexivity).
  field. split; intros H; discriminate H.
Qed.

Lemma threshold_by_category (cat : cell) :
  (if cell_eqb cat (Str "F&B") then Ok 1
   else if cell_eqb cat (Str "Grocery") then Ok 3 else Ok (5 * 24))
  = (Ok (sla_threshold cat) : result Z).
Proof.
  unfold sla_threshold, cell_eqb. destruct cat as [|s| |]; simpl; try done.
  repeat case_bool_decide; repeat case_decide; simplify_eq; done.
Qed.

Lemma sla_try_timestamps (row : gmap string cell) (c d : Timestamp) (cat : cell) :
  row !! Col.create = Some (Time c) →
  row !! Col.delivered = Some (Time d) →
  row !! Col.category = Some cat →
  sla_try row =
    Ok (if bool_decide (elapsed_hours c d ≤ Qc_of_Z (sla_threshold cat))%Qc
        then "Within SLA" else "SLA Breached").
Proof.
  intros Hc Hd Hcat. unfold sla_try, row_getitem. rewrite Hc, Hd, Hcat.
  destruct c as [vc [zc|]], d as [vd [zd|]]; simpl;
    rewrite threshold_by_category; simpl;
    unfold elapsed_hours, wall_clock; simpl; rewrite ?Z.add_0_r; reflexivity.
Qed.



(** C2.  A row whose creation timestamp or delivery timestamp is missing
    has status ['NA']. *)
Theorem calculate_sla_status_missing (row : gmap string cell) :
  row !! Col.create = Some NaN ∨ row !! Col.delivered = Some NaN →
  calculate_sla_status row = "NA".
Proof.
  intros [H | H]; unfold calculate_sla_status, sla_try, row_getitem.
  - by rewrite H.
  - rewrite H. destruct (row !! Col.create) as [c|]; [|done].
    by destruct c.
Qed.

Lemma calculate_sla_status_missing_witness :
  calculate_sla_status (order_row NaN (naive 0) (Str "F&B")) = "NA".
Proof.
  apply (calculate_sla_status_missing (order_row NaN (naive 0) (Str "F&B"))).
  left. reflexivity.
Defined.

(** The status is one of three strings, whatever the row. *)
Lemma calculate_sla_status_cases (row : gmap string cell) :
  calculate_sla_status row = "NA" ∨
  calculate_sla_status row = "Within SLA" ∨
  calculate_sla_status row = "SLA Breached".
Proof.
  unfold calculate_sla_status, sla_try.
  repeat (match goal with
          | |- context [row_getitem ?r ?k] => destruct (row_getitem r k)
          | |- context [isna ?c] => destruct (isna c)
          | |- context [get_tzinfo ?c] => destruct (get_tzinfo c) as [[]|]
          | |- context [cell_tz_localize_none ?c] => destruct (cell_tz_localize_none c)
          | |- context [cell_sub ?a ?b] => destruct (cell_sub a b)
          | |- context [cell_eqb ?a ?b] => destruct (cell_eqb a b)
          | |- context [bool_decide ?P] => destruct (bool_decide P)
          end; simpl; auto).
Qed.

(** ** Columns, masks and counts *)

Lemma length_mask_select {A} (mask : list bool) (l : list A) :
  length mask = length l → length (mask_select mask l) = mask_sum mask.
Proof.
  revert l. unfold mask_sum.
  induction mask as [|b mask IH]; intros [|x l] Hlen; csimpl in *; try done.
  injection Hlen as Hlen.
  destruct b; [rewrite filter_cons_True by done | rewrite filter_cons_False by done];
    csimpl; auto.
Qed.

Lemma mask_select_fmap {A B} (f : A → B) (mask : list bool) (l : list A) :
  mask_select mask (f <$> l) = f <$> mask_select mask l.
Proof.
  revert l. induction mask as [|b mask IH]; intros [|x l]; csimpl; try done.
  destruct b; csimpl; by rewrite IH.
Qed.

Lemma mask_select_pred {A} (p : A → bool) (l : list A) :
  mask_select (p <$> l) l = filter (λ x, p x = true) l.
Proof.
  induction l as [|x l IH]; csimpl; [done|].
  destruct (p x) eqn:Hp.
  - rewrite filter_cons_True by done. by rewrite IH.
  - rewrite filter_cons_False by (by rewrite Hp). done.
Qed.

Lemma mask_sum_fmap {A} (p : A → bool) (l : list A) :
  mask_sum (p <$> l) = length (filter (λ x, p x = true) l).
Proof.
  unfold mask_sum. induction l as [|x l IH]; csimpl; [done|].
  destruct (p x) eqn:Hp.
  - rewrite !filter_cons_True by done. csimpl. by rewrite IH.
  - rewrite !filter_cons_False by (by rewrite ?Hp). done.
Qed.

Lemma unique_elem_of (v : cell) (s : list cell) : v ∈ unique s ↔ v ∈ s.
Proof.
  induction s as [|x s IH]; csimpl; [done|].
  rewrite !elem_of_cons, list_elem_of_filter, IH.
  destruct (decide (v = x)); tauto.
Qed.

Lemma NoDup_unique (s : list cell) : NoDup (unique s).
Proof.
  induction s as [|x s IH]; csimpl; constructor.
  - rewrite list_elem_of_filter. intros [Hne _]. by apply Hne.
  - by apply NoDup_filter.
Qed.

Lemma sum_split_at (f : cell → nat) (x : cell) (u : list cell) :
  NoDup u →
  sum_list_with f u =
    ((if decide (x ∈ u) then f x else 0) + sum_list_with f (filter (λ y, y ≠ x) u))%nat.
Proof.
  induction 1 as [|y u Hy Hu IH]; csimpl.
  - done.
  - destruct (decide (y = x)) as [->|Hne].
    + rewrite decide_True by left.
      rewrite filter_cons_False by (intros Hxx; by apply Hxx).
      rewrite IH. rewrite decide_False by done. lia.
    + rewrite filter_cons_True by done. csimpl. rewrite IH.
      destruct (decide (x ∈ u)) as [Hx|Hx].
      * rewrite decide_True by (by right). lia.
      * rewrite decide_False; [lia|]. intros [?|?]%elem_of_cons; congruence.
Qed.

Lemma occurrences_cons_ne (v x : cell) (s : list cell) :
  v ≠ x → occurrences v (x :: s) = occurrences v s.
Proof. intros Hne. unfold occurrences. rewrite filter_cons. by case_decide. Qed.

Lemma occurrences_not_elem (v : cell) (s : list cell) : v ∉ s → occurrences v s = 0%nat.
Proof.
  intros Hv. unfold occurrences. induction s as [|x s IH]; [done|].
  rewrite filter_cons. apply not_elem_of_cons in Hv as [? ?]. case_decide; [done|]. auto.
Qed.

Lemma sum_occurrences_unique (s : list cell) :
  sum_list_with (λ v, occurrences v s) (unique s) = length s.
Proof.
  induction s as [|x s IH]; csimpl; [done|].
  assert (Hx : occurrences x (x :: s) = S (occurrences x s)).
  { unfold occurrences. rewrite filter_cons. by case_decide. }
  rewrite Hx. rewrite <- IH.
  rewrite (sum_split_at (λ v, occurrences v s) x (unique s) (NoDup_unique s)).
  assert (Hif : (if decide (x ∈ unique s) then occurrences x s else 0%nat) = occurrences x s).
  { destruct (decide (x ∈ unique s)) as [Hin|Hin]; [done|]. symmetry.
    apply occurrences_not_elem. by rewrite <- unique_elem_of. }
  rewrite Hif. csimpl. do 2 f_equal. clear IH Hif.
  induction (unique s) as [|y u IHu]; [done|].
  destruct (decide (y = x)) as [->|Hne].
  - rewrite !filter_cons_False by (intros Hxx; by apply Hxx). apply IHu.
  - rewrite !filter_cons_True by done. csimpl.
    rewrite IHu. by rewrite occurrences_cons_ne.
Qed.

Lemma occurrences_dropna (v : cell) (s : list cell) :
  isna v = false → occurrences v (dropna s) = occurrences v s.
Proof.
  intros Hv. unfold occurrences, dropna. induction s as [|x s IH]; [done|].
  destruct (decide (x = v)) as [->|Hne].
  - rewrite (filter_cons_True (λ c, isna c = false)) by done.
    rewrite !(filter_cons_True (λ c, c = v)) by done. csimpl. by rewrite IH.
  - rewrite (filter_cons_False (λ c, c = v) x s) by done.
    destruct (isna x) eqn:Hx.
    + rewrite (filter_cons_False (λ c, isna c = false)) by (by rewrite Hx). done.
    + rewrite (filter_cons_True (λ c, isna c = false)) by done.
      rewrite (filter_cons_False (λ c, c = v)) by done. done.
Qed.

Lemma sum_value_counts (s : list cell) :
  sum_list (value_counts s).*2 = length (dropna s).
Proof.
  unfold value_counts. rewrite merge_sort_Permutation.
  rewrite <- sum_occurrences_unique.
  rewrite <- list_fmap_compose. 
  assert (Hd : Forall (λ v, isna v = false) (unique (dropna s))).
  { apply Forall_forall. intros v Hv. rewrite unique_elem_of in Hv.
    unfold dropna in Hv. by apply list_elem_of_filter in Hv as [? _]. }
  induction Hd as [|v u Hv Hu IH]; csimpl; [done|].
  rewrite occurrences_dropna by done. f_equal. apply IH.
Qed.

(** ** The SLA summary *)

Lemma length_df_apply {A} (f : gmap string cell → A) (df : DataFrame) :
  length (df_apply f df) = index_len df.
Proof. unfold df_apply. by rewrite length_fmap, length_seq. Qed.

Lemma df_getitem_loc (df : DataFrame) (mask : list bool) (k : string) (col : list cell) :
  columns df !! k = Some col →
  df_getitem (df_loc df mask) k = Ok (mask_select mask col).
Proof. intros H. unfold df_getitem, df_loc. simpl. by rewrite lookup_fmap, H. Qed.

Lemma index_len_loc (df : DataFrame) (mask : list bool) :
  length mask = index_len df → index_len (df_loc df mask) = mask_sum mask.
Proof.
  intros H. unfold df_loc. simpl. apply length_mask_select. by rewrite length_seq.
Qed.

Lemma select_category (k : cell) (cat : list cell) (sts : list string) :
  length cat = length sts →
  mask_select (series_eq cat k) (Str <$> sts) = Str <$> statuses_of k (zip cat sts).
Proof.
  unfold statuses_of, series_eq. revert sts.
  induction cat as [|c cat IH]; intros [|s sts] Hlen; csimpl in *; try done.
  injection Hlen as Hlen. destruct (cell_eqb c k) eqn:Hc.
  - rewrite filter_cons_True by done. csimpl. by rewrite IH.
  - rewrite filter_cons_False by (simpl; by rewrite Hc). by rewrite IH.
Qed.

Lemma length_statuses_of (k : cell) (cat : list cell) (sts : list string) :
  length cat = length sts →
  length (statuses_of k (zip cat sts)) = mask_sum (series_eq cat k).
Proof.
  intros Hlen.
  rewrite <- (length_fmap Str), <- select_category by done.
  apply length_mask_select. unfold series_eq. by rewrite !length_fmap.
Qed.

Lemma columns_loc (df : DataFrame) (mask : list bool) (k : string) :
  columns (df_loc df mask) !! k = mask_select mask <$> columns df !! k.
Proof. unfold df_loc. simpl. by rewrite lookup_fmap. Qed.

Lemma cell_eqb_Str (a b : string) : cell_eqb (Str a) (Str b) = bool_decide (a = b).
Proof. unfold cell_eqb. apply bool_decide_ext. split; congruence. Qed.

Lemma mask_sum_series_eq_str (l : list string) (v : string) :
  mask_sum (series_eq (Str <$> l) (Str v)) = length (filter (λ s, s = v) l).
Proof.
  unfold series_eq. rewrite <- list_fmap_compose, mask_sum_fmap. f_equal.
  apply list_filter_iff. intros s. simpl. rewrite cell_eqb_Str. apply bool_decide_eq_true.
Qed.

Lemma mask_sum_series_ne_str (l : list string) (v : string) :
  mask_sum (series_ne (Str <$> l) (Str v)) = length (filter (λ s, s ≠ v) l).
Proof.
  unfold series_ne. rewrite <- list_fmap_compose, mask_sum_fmap. f_equal.
  apply list_filter_iff. intros s. simpl. rewrite cell_eqb_Str, negb_true_iff.
  apply bool_decide_eq_false.
Qed.

Lemma select_series_ne_str (l : list string) (v : string) :
  mask_select (series_ne (Str <$> l) (Str v)) (Str <$> l) = Str <$> filter (λ s, s ≠ v) l.
Proof.
  unfold series_ne. rewrite <- list_fmap_compose, mask_select_fmap, mask_select_pred.
  f_equal. apply list_filter_iff. intros s. simpl. rewrite cell_eqb_Str, negb_true_iff.
  apply bool_decide_eq_false.
Qed.

Lemma filter_eq_after_ne (l : list string) (v v' : string) :
  v ≠ v' → filter (λ s, s = v) (filter (λ s, s ≠ v') l) = filter (λ s, s = v) l.
Proof.
  intros Hne. rewrite list_filter_filter. apply list_filter_iff.
  intros s. split; [tauto | intros ->; done].
Qed.

Lemma sla_summary_step_run (w : world) (cat : list cell) (sts : list string)
    (acc : list (cell * DataFrame)) (k : cell) :
  columns (frame w) !! Col.category = Some cat →
  columns (frame w) !! Col.sla = Some (Str <$> sts) →
  length cat = index_len (frame w) →
  length sts = index_len (frame w) →
  sla_summary_step acc k w = (Ok (summary_step (zip cat sts) acc k), w).
Proof.
  intros Hcat Hsla Hlc Hls.
  assert (Hlen : length cat = length sts) by congruence.
  unfold sla_summary_step, summary_step, valid_count, status_count.
  unfold mbind, M_bind, getitem, get_frame, liftR, mret, M_ret.
  unfold df_getitem at 1. rewrite Hcat.
  set (category_df := df_loc (frame w) (series_eq cat k)).
  set (l1 := statuses_of k (zip cat sts)).
  assert (Hn1 : index_len category_df = length l1).
  { unfold category_df, l1. rewrite index_len_loc, length_statuses_of; [done..|].
    unfold series_eq. by rewrite length_fmap. }
  assert (Hs1 : columns category_df !! Col.sla = Some (Str <$> l1)).
  { unfold category_df, l1. rewrite columns_loc, Hsla. simpl. by rewrite select_category. }
  assert (Hv : ∀ s, columns category_df !! Col.sla = Some (Str <$> l1) →
     index_len (df_loc category_df (series_ne (Str <$> l1) (Str s)))
     = length (filter (λ x, x ≠ s) l1)).
  { intros s _. rewrite index_len_loc, mask_sum_series_ne_str; [done|].
    unfold series_ne. by rewrite !length_fmap. }
  case_bool_decide as Hpos.
  - unfold df_getitem at 1. rewrite Hs1.
    set (valid_orders := df_loc category_df (series_ne (Str <$> l1) (Str "NA"))).
    set (l2 := filter (λ x, x ≠ "NA") l1).
    assert (Hn2 : index_len valid_orders = length l2) by (by apply Hv).
    assert (Hs2 : columns valid_orders !! Col.sla = Some (Str <$> l2)).
    { unfold valid_orders, l2. rewrite columns_loc, Hs1. simpl.
      by rewrite select_series_ne_str. }
    rewrite Hn2. case_bool_decide as Hpos2; [|done].
    unfold df_getitem at 1 2. rewrite Hs2.
    assert (Hc : ∀ s, s ≠ "NA" →
       index_len (df_loc valid_orders (series_eq (Str <$> l2) (Str s)))
       = length (filter (λ x, x = s) l1)).
    { intros s Hs. rewrite index_len_loc, mask_sum_series_eq_str.
      - unfold l2. by rewrite filter_eq_after_ne.
      - unfold series_eq. by rewrite !length_fmap. }
    rewrite !Hc by done. reflexivity.
  - case_bool_decide as Hpos2; [|done]. exfalso. apply Hpos.
    rewrite Hn1. pose proof (length_filter (λ x, x ≠ "NA") l1). lia.
Qed.

Lemma for_fold_summary (w : world) (cat : list cell) (sts : list string)
    (ks : list cell) (acc : list (cell * DataFrame)) :
  columns (frame w) !! Col.category = Some cat →
  columns (frame w) !! Col.sla = Some (Str <$> sts) →
  length cat = index_len (frame w) →
  length sts = index_len (frame w) →
  for_fold sla_summary_step acc ks w = (Ok (fold_left (summary_step (zip cat sts)) ks acc), w).
Proof.
  intros Hcat Hsla Hlc Hls. revert acc.
  induction ks as [|k ks IH]; intros acc; simpl; [done|].
  unfold mbind, M_bind at 1.
  rewrite (sla_summary_step_run w cat sts acc k) by done. apply IH.
Qed.

Lemma create_sla_summary_run (w : world) (cat : list cell) :
  columns (frame w) !! Col.category = Some cat →
  length cat = index_len (frame w) →
  create_sla_summary w =
    (Ok (fold_left (summary_step (sla_rows (frame w) cat)) (unique cat) []),
     {| frame := with_sla_status (frame w); page := page w |}).
Proof.
  intros Hcat Hlen. unfold create_sla_summary, sla_rows.
  unfold mbind at 1 2 3, M_bind at 1 2 3, get_frame, setitem, getitem. simpl.
  fold (with_sla_status (frame w)).
  set (w' := {| frame := with_sla_status (frame w); page := page w |}).
  assert (Hcat' : columns (frame w') !! Col.category = Some cat).
  { simpl. by rewrite lookup_insert_ne. }
  unfold df_getitem. change (with_sla_status (frame w)) with (frame w') at 1.
  rewrite Hcat'.
  apply (for_fold_summary w' cat); simpl; try done.
  - by rewrite lookup_insert_eq.
  - apply length_df_apply.
Qed.

Lemma create_sla_summary_no_category (w : world) :
  columns (frame w) !! Col.category = None →
  create_sla_summary w =
    (Raise (KeyError Col.category),
     {| frame := with_sla_status (frame w); page := page w |}).
Proof.
  intros Hcat. unfold create_sla_summary.
  unfold mbind at 1 2 3, M_bind at 1 2 3, get_frame, setitem, getitem. simpl.
  unfold df_getitem. simpl. rewrite lookup_insert_ne by done. by rewrite Hcat.
Qed.

(** *** The dict of summaries *)

Lemma dict_set_keys {V} (d : list (cell * V)) (k k' : cell) (v : V) :
  k' ∈ (dict_set d k v).*1 ↔ k' = k ∨ k' ∈ d.*1.
Proof.
  induction d as [|[k0 v0] d IH]; csimpl.
  - rewrite list_elem_of_singleton. split; [auto|]. intros [?|H]; [done|]. by apply elem_of_nil in H.
  - case_bool_decide as Hk; csimpl; rewrite !elem_of_cons; [subst; tauto|].
    rewrite IH. tauto.
Qed.

Lemma dict_set_elem {V} (d : list (cell * V)) (k : cell) (v : V) (p : cell * V) :
  p ∈ dict_set d k v → p = (k, v) ∨ p ∈ d.
Proof.
  induction d as [|[k0 v0] d IH]; csimpl.
  - intros ->%list_elem_of_singleton. by left.
  - case_bool_decide as Hk; rewrite !elem_of_cons; [tauto|].
    intros [?|?]; [tauto|]. destruct IH; auto.
Qed.

Lemma dict_set_NoDup {V} (d : list (cell * V)) (k : cell) (v : V) :
  NoDup d.*1 → NoDup (dict_set d k v).*1.
Proof.
  induction d as [|[k0 v0] d IH]; csimpl; intros Hd.
  - apply NoDup_singleton.
  - apply NoDup_cons in Hd as [Hk0 Hd].
    case_bool_decide as Hk; csimpl; apply NoDup_cons.
    + by subst.
    + split; [|by apply IH]. rewrite dict_set_keys. intros [?|?]; congruence.
Qed.

Lemma summaries_keys (rows : list (cell * string)) (ks : list cell)
    (acc : list (cell * DataFrame)) (k : cell) :
  k ∈ (fold_left (summary_step rows) ks acc).*1 ↔
  k ∈ acc.*1 ∨ (k ∈ ks ∧ (0 < valid_count k rows)%nat).
Proof.
  revert acc. induction ks as [|k0 ks IH]; intros acc; simpl.
  - split; [auto|]. intros [?|[H _]]; [done|]. by apply elem_of_nil in H.
  - rewrite IH, elem_of_cons. unfold summary_step. case_bool_decide as Hpos.
    + rewrite dict_set_keys. split; [|intros [?|[[->|?] ?]]; auto].
      intros [[->|?]|[? ?]]; auto.
    + split; [intros [?|[? ?]]; auto|].
      intros [?|[[->|?] ?]]; auto. done.
Qed.

Lemma summaries_elem (rows : list (cell * string)) (ks : list cell)
    (acc : list (cell * DataFrame)) (k : cell) (s : DataFrame) :
  (k, s) ∈ fold_left (summary_step rows) ks acc →
  (k, s) ∈ acc ∨
  ((0 < valid_count k rows)%nat ∧
   s = sla_table (status_count "Within SLA" k rows)
                 (status_count "SLA Breached" k rows) (valid_count k rows)).
Proof.
  revert acc. induction ks as [|k0 ks IH]; intros acc; simpl; [auto|].
  intros [H|H]%IH; [|auto]. unfold summary_step in H. case_bool_decide as Hpos; [|auto].
  apply dict_set_elem in H as [H|H]; [|auto]. injection H as -> ->. auto.
Qed.

Lemma summaries_NoDup (rows : list (cell * string)) (ks : list cell)
    (acc : list (cell * DataFrame)) :
  NoDup acc.*1 → NoDup (fold_left (summary_step rows) ks acc).*1.
Proof.
  revert acc. induction ks as [|k0 ks IH]; intros acc Hacc; simpl; [done|].
  apply IH. unfold summary_step. case_bool_decide; [|done]. by apply dict_set_NoDup.
Qed.

(** *** Rounding to two decimals *)

Lemma round_half_even_Z (q : Qc) :
  - Zpos (Qden q) ≤ 2 * (round_half_even q * Zpos (Qden q) - Qnum q) ≤ Zpos (Qden q).
Proof.
  unfold round_half_even.
  set (n := Qnum q). set (d := Zpos (Qden q)).
  assert (Hd : 0 < d) by (unfold d; lia).
  pose proof (Z.div_mod n d ltac:(lia)) as Hdm.
  pose proof (Z.mod_pos_bound n d Hd) as Hm.
  repeat case_bool_decide; destruct (Z.even (n `div` d)); nia.
Qed.

Lemma round_half_even_Q (q : Qc) :
  (inject_Z (round_half_even q) - this q <= 1 # 2)%Q ∧
  (this q - inject_Z (round_half_even q) <= 1 # 2)%Q.
Proof.
  pose proof (round_half_even_Z q) as H.
  destruct q as [[n d] Hc]. simpl in *.
  set (z := round_half_even _) in *. clearbody z.
  unfold Qle, Qminus, Qplus, Qopp, inject_Z. simpl. split; nia.
Qed.

Lemma round2_Q (x : Qc) :
  (this (round2 x) - this x <= 1 # 200)%Q ∧ (this x - this (round2 x) <= 1 # 200)%Q.
Proof.
  unfold round2. destruct (round_half_even_Q (x * Qc_of_Z 100)%Qc) as [H1 H2].
  set (z := round_half_even _) in *. clearbody z.
  revert H1 H2. unfold Qcmult, Qcdiv, Qcinv, Qcmult. simpl this.
  repeat (rewrite ?Qred_correct; simpl this).
  change (inject_Z 100) with (100 # 1)%Q. change (/ (100 # 1))%Q with (1 # 100)%Q.
  generalize (inject_Z z). generalize (this x). intros a b H1 H2.
  split; lra.
Qed.

Lemma shares_sum (c1 c2 n : nat) :
  (c1 + c2 = n)%nat → (0 < n)%nat →
  (Qc_of_Z (Z.of_nat c1) / Qc_of_Z (Z.of_nat n) * Qc_of_Z 100
   + Qc_of_Z (Z.of_nat c2) / Qc_of_Z (Z.of_nat n) * Qc_of_Z 100 = Qc_of_Z 100)%Qc.
Proof.
  intros Hsum Hn. subst n. rewrite Nat2Z.inj_add, Z2Qc_inj_add.
  field. rewrite <- Z2Qc_inj_add, <- Z2Qc_inj_0. intros H%Z2Qc_inj. lia.
Qed.

Lemma percentage_sum (c1 c2 n : nat) :
  (c1 + c2 = n)%nat → (0 < n)%nat →
  (Qc_of_Z 100 - Q2Qc (1 # 100) ≤ percentage c1 n + percentage c2 n)%Qc ∧
  (percentage c1 n + percentage c2 n ≤ Qc_of_Z 100 + Q2Qc (1 # 100))%Qc.
Proof.
  intros Hsum Hn. unfold percentage.
  pose proof (shares_sum c1 c2 n Hsum Hn) as Hx.
  set (x1 := (_ / _ * _)%Qc) in *.
  set (x2 := (Qc_of_Z (Z.of_nat c2) / _ * _)%Qc) in *.
  destruct (round2_Q x1) as [H1 H2]. destruct (round2_Q x2) as [H3 H4].
  assert (Hq : (this x1 + this x2 == 100 # 1)%Q).
  { rewrite <- (Qred_correct (this x1 + this x2)).
    change (Qred (this x1 + this x2)) with (this (x1 + x2)%Qc). by rewrite Hx. }
  clearbody x1 x2. clear Hx.
  revert H1 H2 H3 H4. generalize (round2 x1) (round2 x2). intros r1 r2 H1 H2 H3 H4.
  unfold Qcle, Qcminus, Qcplus, Qcopp. simpl this. rewrite !Qred_correct.
  change (inject_Z 100) with (100 # 1)%Q.
  split; lra.
Qed.

(** *** Statuses of the rows of a category *)

Lemma sla_rows_statuses (df : DataFrame) (cat : list cell) (k : cell) :
  Forall (λ s, s = "NA" ∨ s = "Within SLA" ∨ s = "SLA Breached")
         (statuses_of k (sla_rows df cat)).
Proof.
  apply Forall_forall. intros s. unfold statuses_of, sla_rows.
  intros Hs. apply list_elem_of_fmap in Hs as [[c s'] [Heq Hin]]. simpl in Heq. subst s'.
  apply list_elem_of_filter in Hin as [_ Hin].
  apply elem_of_zip_r in Hin. unfold df_apply in Hin.
  apply list_elem_of_fmap in Hin as [i [Heq _]]. subst s. apply calculate_sla_status_cases.
Qed.

Lemma status_counts_sum (l : list string) :
  Forall (λ s, s = "NA" ∨ s = "Within SLA" ∨ s = "SLA Breached") l →
  (length (filter (λ s, s = "Within SLA") l) + length (filter (λ s, s = "SLA Breached") l)
   = length (filter (λ s, s ≠ "NA") l))%nat.
Proof.
  induction 1 as [|s l Hs Hl IH]; [done|].
  destruct Hs as [-> | [-> | ->]].
  - rewrite !filter_cons_False by (try done; intros H; by apply H). done.
  - rewrite (filter_cons_True (λ s, s = "Within SLA")) by done.
    rewrite (filter_cons_False (λ s, s = "SLA Breached")) by done.
    rewrite (filter_cons_True (λ s, s ≠ "NA")) by done. simpl. lia.
  - rewrite (filter_cons_False (λ s, s = "Within SLA")) by done.
    rewrite (filter_cons_True (λ s, s = "SLA Breached")) by done.
    rewrite (filter_cons_True (λ s, s ≠ "NA")) by done. simpl. lia.
Qed.

Lemma cell_eqb_true (c k : cell) : cell_eqb c k = true ↔ c = k ∧ k ≠ NaN.
Proof.
  unfold cell_eqb. destruct c, k; try rewrite bool_decide_eq_true; split; try done;
    try (intros [? ?]; done); try (intros ->; done).
Qed.

Lemma valid_count_pos (k : cell) (rows : list (cell * string)) :
  (0 < valid_count k rows)%nat ↔ k ≠ NaN ∧ ∃ s, (k, s) ∈ rows ∧ s ≠ "NA".
Proof.
  unfold valid_count, statuses_of. split.
  - intros Hpos.
    destruct (filter (λ s, s ≠ "NA") (filter (λ p, cell_eqb p.1 k = true) rows).*2)
      as [|s l] eqn:Hf; [simpl in Hpos; lia|].
    assert (Hs : s ∈ filter (λ s, s ≠ "NA") (filter (λ p, cell_eqb p.1 k = true) rows).*2)
      by (rewrite Hf; left).
    apply list_elem_of_filter in Hs as [Hna Hs].
    apply list_elem_of_fmap in Hs as [[c s'] [Heq Hs]]. simpl in Heq. subst s'.
    apply list_elem_of_filter in Hs as [Hc Hs]. simpl in Hc.
    apply cell_eqb_true in Hc as [-> Hk]. eauto.
  - intros [Hk [s [Hin Hna]]].
    assert (Hs : s ∈ filter (λ s, s ≠ "NA") (filter (λ p, cell_eqb p.1 k = true) rows).*2).
    { apply list_elem_of_filter. split; [done|].
      apply list_elem_of_fmap. exists (k, s). split; [done|].
      apply list_elem_of_filter. split; [|done]. simpl. by apply cell_eqb_true. }
    destruct (filter _ _); [by apply elem_of_nil in Hs | simpl; lia].
Qed.

Lemma wf_frame_length (df : DataFrame) (k : string) (col : list cell) :
  wf_frame df → columns df !! k = Some col → length col = index_len df.
Proof. intros Hwf Hk. by apply (map_Forall_lookup_1 _ _ _ _ Hwf Hk). Qed.

(** C8.  The status of a row is one of ['NA'], ['Within SLA'] and
    ['SLA Breached']; so the rows with a status other than ['NA'] are those
    within the SLA and those in breach, and the two counts of the summary
    table of a category add up to the number of its valid rows. *)
Theorem sla_counts_cover_valid_rows (w : world) (cat : list cell) :
  wf_frame (frame w) →
  columns (frame w) !! Col.category = Some cat →
  (∀ row, calculate_sla_status row ∈ ["NA"; "Within SLA"; "SLA Breached"]) ∧
  Forall (λ s, s ≠ "NA" ↔ s = "Within SLA" ∨ s = "SLA Breached")
         (df_apply calculate_sla_status (frame w)) ∧
  ∃ summaries,
    (create_sla_summary w).1 = Ok summaries ∧
    ∀ k s, (k, s) ∈ summaries →
      let rows := sla_rows (frame w) cat in
      df_getitem s "Count"
        = Ok [Num (Qc_of_Z (Z.of_nat (status_count "Within SLA" k rows)));
              Num (Qc_of_Z (Z.of_nat (status_count "SLA Breached" k rows)))] ∧
      (status_count "Within SLA" k rows + status_count "SLA Breached" k rows
       = valid_count k rows)%nat.
Proof.
  intros Hwf Hcat. split; [|split].
  - intros row. rewrite !elem_of_cons.
    destruct (calculate_sla_status_cases row) as [-> | [-> | ->]]; auto.
  - apply Forall_forall. intros s Hs. unfold df_apply in Hs.
    apply list_elem_of_fmap in Hs as [i [Heq _]]. subst s.
    destruct (calculate_sla_status_cases (df_row (frame w) i)) as [-> | [-> | ->]];
      split; auto; try done. intros [?|?]; done.
  - rewrite (create_sla_summary_run w cat Hcat (wf_frame_length _ _ _ Hwf Hcat)).
    eexists. split; [reflexivity|]. intros k s Hks rows.
    apply summaries_elem in Hks as [Hks | [Hpos ->]]; [by apply elem_of_nil in Hks|].
    split; [reflexivity|].
    apply status_counts_sum, sla_rows_statuses.
Qed.

Lemma sample_orders_wf : wf_frame sample_orders.
Proof. apply (bool_decide_unpack _). vm_compute. exact I. Defined.

Lemma sla_counts_cover_valid_rows_witness :
  ∃ summaries,
    (create_sla_summary sample_world).1 = Ok summaries ∧
    ∀ k s, (k, s) ∈ summaries →
      let rows := sla_rows sample_orders [Str "F&B"; Str "F&B"; Str "Grocery"; NaN] in
      df_getitem s "Count"
        = Ok [Num (Qc_of_Z (Z.of_nat (status_count "Within SLA" k rows)));
              Num (Qc_of_Z (Z.of_nat (status_count "SLA Breached" k rows)))] ∧
      (status_count "Within SLA" k rows + status_count "SLA Breached" k rows
       = valid_count k rows)%nat.
Proof.
  apply (sla_counts_cover_valid_rows sample_world
           [Str "F&B"; Str "F&B"; Str "Grocery"; NaN] sample_orders_wf eq_refl).
Defined.

Lemma summaries_of_table (w : world) (cat : list cell) :
  wf_frame (frame w) →
  columns (frame w) !! Col.category = Some cat →
  ∃ summaries,
    (create_sla_summary w).1 = Ok summaries ∧
    summaries = fold_left (summary_step (sla_rows (frame w) cat)) (unique cat) [] ∧
    NoDup summaries.*1 ∧
    ∀ k, k ∈ summaries.*1 ↔
         k ≠ NaN ∧ ∃ s, (k, s) ∈ sla_rows (frame w) cat ∧ s ≠ "NA".
Proof.
  intros Hwf Hcat.
  rewrite (create_sla_summary_run w cat Hcat (wf_frame_length _ _ _ Hwf Hcat)).
  eexists. split; [reflexivity|]. split; [reflexivity|]. split.
  - apply summaries_NoDup. constructor.
  - intros k. rewrite summaries_keys, <- valid_count_pos. split.
    + intros [Hk | [_ Hpos]]; [by apply elem_of_nil in Hk | done].
    + intros Hpos. right. split; [|done].
      apply valid_count_pos in Hpos as [_ [s [Hin _]]].
      apply unique_elem_of. unfold sla_rows in Hin. by apply elem_of_zip_l in Hin.
Qed.

(** C9.  The keys of the result of [create_sla_summary] are the categories
    with at least one row whose status is not ['NA'], each once; a category
    whose rows all have status ['NA'] is no key. *)
Theorem create_sla_summary_keys (w : world) (cat : list cell) :
  wf_frame (frame w) →
  columns (frame w) !! Col.category = Some cat →
  ∃ summaries,
    (create_sla_summary w).1 = Ok summaries ∧
    NoDup summaries.*1 ∧
    ∀ k, k ∈ summaries.*1 ↔
         k ≠ NaN ∧ ∃ s, (k, s) ∈ sla_rows (frame w) cat ∧ s ≠ "NA".
Proof.
  intros Hwf Hcat.
  destruct (summaries_of_table w cat Hwf Hcat) as [summaries [Hrun [_ [Hnd Hkeys]]]].
  by exists summaries.
Qed.

Lemma create_sla_summary_keys_witness :
  ∃ summaries,
    (create_sla_summary sample_world).1 = Ok summaries ∧
    NoDup summaries.*1 ∧
    ∀ k, k ∈ summaries.*1 ↔
         k ≠ NaN ∧ ∃ s, (k, s) ∈ sla_rows sample_orders
                                   [Str "F&B"; Str "F&B"; Str "Grocery"; NaN] ∧ s ≠ "NA".
Proof.
  apply (create_sla_summary_keys sample_world
           [Str "F&B"; Str "F&B"; Str "Grocery"; NaN] sample_orders_wf eq_refl).
Defined.

(** On the sample table the Grocery order has no creation time, the order
    without category is no category, and the only key is F&B. *)
Example create_sla_summary_sample_keys :
  (λ summaries, summaries.*1) <$> (create_sla_summary sample_world).1 = Ok [Str "F&B"].
Proof. vm_compute. reflexivity. Qed.



(** ** The distribution aggregators *)

Lemma getitem_bind {A} (key : string) (f : list cell → M A) (w : world) :
  (getitem key ≫= f) w =
  match columns (frame w) !! key with
  | Some col => f col w
  | None => (Raise (KeyError key), w)
  end.
Proof.
  unfold mbind, M_bind, getitem, df_getitem. by destruct (columns (frame w) !! key).
Qed.

Lemma chart_counts_pie (names : list cell) (values : list nat) (t : string) (h : Z)
    (m : Z * Z * Z * Z) :
  chart_counts (update_layout (px_pie values names t) h m) = values.
Proof. reflexivity. Qed.

Lemma chart_counts_bar (x : list cell) (y : list nat) (t : string) (h : Z)
    (m : Z * Z * Z * Z) :
  chart_counts (update_layout (px_bar x y t) h m) = y.
Proof. reflexivity. Qed.

Lemma mapM_extract_text (contact : list cell) :
  Forall is_text contact → ∃ d, mapM extract_email_domain contact = Ok d.
Proof.
  induction 1 as [|c contact Hc Hf [d IH]]; [by exists []|].
  assert (Hd : ∃ x, extract_email_domain c = Ok x).
  { destruct c as [|s| |]; simpl in Hc; try done; unfold extract_email_domain; simpl.
    - eauto.
    - destruct (re_search false email_re s) as [[]|]; eauto. }
  destruct Hd as [x Hx]. exists (x :: d). simpl. rewrite Hx. simpl. rewrite IH. done.
Qed.

Lemma analyze_tickets_run (w : world) (contact domains status : list cell) :
  columns (frame w) !! "Contact ID" = Some contact →
  mapM extract_email_domain contact = Ok domains →
  columns (frame w) !! "Status" = Some status →
  analyze_tickets w =
    let df := with_email_domain (frame w) domains in
    let shown := page w ++ ticket_overview df status domains in
    match columns (frame w) !! "Subject" with
    | Some subject =>
        (Ok (),
         {| frame := df;
            page := shown ++
              [PlotlyChart (pattern_chart (mask_sum (str_contains order_re false false subject))
                                          (mask_sum (str_startswith "Fwd:" false subject)));
               Table df] |})
    | None => (Raise (KeyError "Subject"), {| frame := df; page := shown |})
    end.
Proof.
  intros Hcontact Hdom Hstatus. unfold analyze_tickets.
  rewrite getitem_bind, Hcontact.
  unfold mbind at 1, M_bind at 1, liftR at 1. rewrite Hdom.
  unfold mbind at 1, M_bind at 1, setitem at 1.
  unfold mbind at 1, M_bind at 1, len at 1. cbn [frame].
  unfold mbind at 1, M_bind at 1, st at 1. cbn [frame page].
  fold (with_email_domain (frame w) domains).
  set (df := with_email_domain (frame w) domains).
  assert (Hst : ∀ p, columns (frame {| frame := df; page := p |}) !! "Status" = Some status).
  { intros p. simpl. by rewrite lookup_insert_ne. }
  assert (Hdm : ∀ p, columns (frame {| frame := df; page := p |}) !! "Email Domain" = Some domains).
  { intros p. simpl. by rewrite lookup_insert_eq. }
  assert (Hsub : ∀ p, columns (frame {| frame := df; page := p |}) !! "Subject"
                      = columns (frame w) !! "Subject").
  { intros p. simpl. by rewrite lookup_insert_ne. }
  rewrite getitem_bind, Hst.
  unfold mbind at 1 2, M_bind at 1 2, get_frame at 1, st at 1. cbn [frame page].
  rewrite getitem_bind, Hst.
  unfold mbind at 1 2, M_bind at 1 2, get_frame at 1, st at 1. cbn [frame page].
  rewrite getitem_bind, Hst.
  unfold mbind at 1, M_bind at 1, st at 1. cbn [frame page].
  rewrite getitem_bind, Hdm.
  unfold mbind at 1, M_bind at 1, st at 1. cbn [frame page].
  rewrite getitem_bind, Hsub.
  unfold ticket_overview, ticket_status_chart. cbn zeta. rewrite <- !app_assoc. cbn [app].
  destruct (columns (frame w) !! "Subject") as [subject|]; [|done].
  rewrite getitem_bind, Hsub.
  unfold mbind, M_bind, st, get_frame, pattern_chart. cbn [frame page].
  by rewrite <- !app_assoc.
Qed.



(** ** What the aggregators do to the table *)

Lemma reads_only_mret {A} (a : A) : reads_only (mret a : M A).
Proof. by intros w. Qed.

Lemma reads_only_liftR {A} (r : result A) : reads_only (liftR r).
Proof. by intros w. Qed.

Lemma reads_only_getitem (key : string) : reads_only (getitem key).
Proof. by intros w. Qed.

Lemma reads_only_get_frame : reads_only get_frame.
Proof. by intros w. Qed.

Lemma reads_only_len : reads_only len.
Proof. by intros w. Qed.

Lemma reads_only_bind {A B} (m : M A) (f : A → M B) :
  reads_only m → (∀ a, reads_only (f a)) → reads_only (m ≫= f).
Proof.
  intros Hm Hf w. unfold mbind, M_bind. specialize (Hm w).
  destruct (m w) as [[a|e] w']; simpl in Hm; subst w'; [apply Hf | done].
Qed.

Lemma reads_only_if {A} (b : bool) (m1 m2 : M A) :
  reads_only m1 → reads_only m2 → reads_only (if b then m1 else m2).
Proof. by destruct b. Qed.

Create HintDb frame discriminated.
#[local] Hint Resolve reads_only_mret reads_only_liftR reads_only_getitem
  reads_only_get_frame reads_only_len reads_only_if : frame.
#[local] Hint Extern 2 (reads_only (_ ≫= _)) => apply reads_only_bind; [|intros ?] : frame.

Lemma reads_only_sla_summary_step (acc : list (cell * DataFrame)) (k : cell) :
  reads_only (sla_summary_step acc k).
Proof. unfold sla_summary_step. auto 20 with frame. Qed.

Lemma reads_only_for_fold {A B} (body : B → A → M B) (xs : list A) (acc : B) :
  (∀ b a, reads_only (body b a)) → reads_only (for_fold body acc xs).
Proof.
  intros Hbody. revert acc. induction xs as [|x xs IH]; intros acc; simpl.
  - apply reads_only_mret.
  - apply reads_only_bind; auto.
Qed.

Lemma keeps_frame_reads_only {A} (m : M A) : reads_only m → keeps_frame m.
Proof. intros Hm w. by rewrite Hm. Qed.

Lemma keeps_frame_st (wd : widget) : keeps_frame (st wd).
Proof. by intros w. Qed.

Lemma keeps_frame_bind {A B} (m : M A) (f : A → M B) :
  keeps_frame m → (∀ a, keeps_frame (f a)) → keeps_frame (m ≫= f).
Proof.
  intros Hm Hf w. unfold mbind, M_bind. specialize (Hm w).
  destruct (m w) as [[a|e] w']; simpl in *; [by rewrite Hf | done].
Qed.

#[local] Hint Resolve keeps_frame_st : frame.
#[local] Hint Extern 2 (keeps_frame (_ ≫= _)) => apply keeps_frame_bind; [|intros ?] : frame.
#[local] Hint Extern 5 (keeps_frame _) => apply keeps_frame_reads_only : frame.

Lemma create_sla_summary_state (w : world) :
  (create_sla_summary w).2 = {| frame := with_sla_status (frame w); page := page w |}.
Proof.
  unfold create_sla_summary.
  unfold mbind at 1 2, M_bind at 1 2, get_frame, setitem. cbn [frame page].
  fold (with_sla_status (frame w)).
  apply (reads_only_bind (getitem Col.category)); [auto with frame|].
  intros cat. apply reads_only_for_fold, reads_only_sla_summary_step.
Qed.

Lemma create_sla_charts_state (w : world) :
  (create_sla_charts w).2 = {| frame := with_sla_status (frame w); page := page w |}.
Proof.
  unfold create_sla_charts.
  unfold mbind at 1 2, M_bind at 1 2, get_frame at 1, setitem. cbn [frame page].
  fold (with_sla_status (frame w)).
  match goal with |- (?m _).2 = _ => assert (Hm : reads_only m) by auto 20 with frame end.
  apply Hm.
Qed.

Lemma analyze_tickets_frame_cases (w : world) (P : DataFrame → Prop) :
  P (frame w) →
  (∀ domains, P (with_email_domain (frame w) domains)) →
  P (frame (analyze_tickets w).2).
Proof.
  intros Hsame Hset. unfold analyze_tickets.
  unfold mbind at 1, M_bind at 1, getitem at 1.
  destruct (df_getitem (frame w) "Contact ID") as [contact|e]; [|done].
  unfold mbind at 1, M_bind at 1, liftR at 1.
  destruct (mapM extract_email_domain contact) as [d|e]; [|done].
  unfold mbind at 1, M_bind at 1, setitem at 1.
  match goal with |- P (frame (?m ?w').2) =>
    assert (Hm : keeps_frame m) by auto 30 with frame; rewrite (Hm w') end.
  apply Hset.
Qed.

(** *** Runs driven by the table alone *)

Lemma table_driven_reads {A} (f : DataFrame → result A) :
  table_driven (λ w, (f (frame w), w)).
Proof.
  intros w w' Hf. simpl. rewrite Hf. split; [done|]. split; [done|].
  exists []. by rewrite !app_nil_r.
Qed.

Lemma table_driven_mret {A} (a : A) : table_driven (mret a : M A).
Proof. apply (table_driven_reads (λ _, Ok a)). Qed.

Lemma table_driven_liftR {A} (r : result A) : table_driven (liftR r).
Proof. apply (table_driven_reads (λ _, r)). Qed.

Lemma table_driven_getitem (key : string) : table_driven (getitem key).
Proof. apply (table_driven_reads (λ df, df_getitem df key)). Qed.

Lemma table_driven_get_frame : table_driven get_frame.
Proof. apply (table_driven_reads Ok). Qed.

Lemma table_driven_len : table_driven len.
Proof. apply (table_driven_reads (λ df, Ok (index_len df))). Qed.

Lemma table_driven_setitem (key : string) (col : list cell) :
  table_driven (setitem key col).
Proof.
  intros w w' Hf. simpl. rewrite Hf. split; [done|]. split; [done|].
  exists []. by rewrite !app_nil_r.
Qed.

Lemma table_driven_put_frame (df : DataFrame) : table_driven (put_frame df).
Proof.
  intros w w' Hf. simpl. split; [done|]. split; [done|].
  exists []. by rewrite !app_nil_r.
Qed.

Lemma table_driven_st (wd : widget) : table_driven (st wd).
Proof. intros w w' Hf. simpl. split; [done|]. split; [done|]. by exists [wd]. Qed.

Lemma table_driven_bind {A B} (m : M A) (f : A → M B) :
  table_driven m → (∀ a, table_driven (f a)) → table_driven (m ≫= f).
Proof.
  intros Hm Hf w w' Hw. unfold mbind, M_bind.
  destruct (Hm w w' Hw) as [H1 [H2 [shown [H3 H4]]]].
  destruct (m w) as [r1 w1], (m w') as [r2 w2]. simpl in *. subst r2.
  destruct r1 as [a|e]; simpl.
  - destruct (Hf a w1 w2 H2) as [H5 [H6 [shown' [H7 H8]]]].
    split; [done|]. split; [done|]. exists (shown ++ shown').
    by rewrite H7, H8, H3, H4, !app_assoc.
  - split; [done|]. split; [done|]. by exists shown.
Qed.

Lemma table_driven_if {A} (b : bool) (m1 m2 : M A) :
  table_driven m1 → table_driven m2 → table_driven (if b then m1 else m2).
Proof. by destruct b. Qed.

Lemma table_driven_for_fold {A B} (body : B → A → M B) (xs : list A) (acc : B) :
  (∀ b a, table_driven (body b a)) → table_driven (for_fold body acc xs).
Proof.
  intros Hbody. revert acc. induction xs as [|x xs IH]; intros acc; simpl.
  - apply table_driven_mret.
  - apply table_driven_bind; auto.
Qed.

Lemma table_driven_try_except {A} (body : M A) (handler : exn → M A) :
  table_driven body → (∀ e, table_driven (handler e)) →
  table_driven (try_except body handler).
Proof.
  intros Hm Hf w w' Hw. unfold try_except.
  destruct (Hm w w' Hw) as [H1 [H2 [shown [H3 H4]]]].
  destruct (body w) as [r1 w1], (body w') as [r2 w2]. simpl in *. subst r2.
  destruct r1 as [a|e]; simpl.
  - split; [done|]. split; [done|]. by exists shown.
  - destruct (Hf e w1 w2 H2) as [H5 [H6 [shown' [H7 H8]]]].
    split; [done|]. split; [done|]. exists (shown ++ shown').
    by rewrite H7, H8, H3, H4, !app_assoc.
Qed.

#[local] Hint Resolve table_driven_mret table_driven_liftR table_driven_getitem
  table_driven_get_frame table_driven_len table_driven_setitem table_driven_put_frame
  table_driven_st table_driven_if : frame.
#[local] Hint Extern 2 (table_driven (_ ≫= _)) => apply table_driven_bind; [|intros ?] : frame.

Lemma table_driven_sla_summary : table_driven create_sla_summary.
Proof.
  unfold create_sla_summary.
  apply table_driven_bind; [auto with frame|]. intros df.
  apply table_driven_bind; [auto with frame|]. intros _.
  apply table_driven_bind; [auto with frame|]. intros cat.
  apply table_driven_for_fold. intros acc k. unfold sla_summary_step. auto 30 with frame.
Qed.

Lemma table_driven_analyze_tickets : table_driven analyze_tickets.
Proof. unfold analyze_tickets. auto 40 with frame. Qed.

Lemma reads_only_status_tracker : reads_only create_ticket_status_tracker.
Proof. unfold create_ticket_status_tracker. auto with frame. Qed.

Lemma reads_only_category_summary : reads_only create_category_summary.
Proof. unfold create_category_summary. auto with frame. Qed.

Lemma reads_only_city_summary : reads_only create_city_summary.
Proof. unfold create_city_summary. auto with frame. Qed.

Lemma with_sla_status_others (df : DataFrame) :
  index_len (with_sla_status df) = index_len df ∧
  delete Col.sla (columns (with_sla_status df)) = delete Col.sla (columns df).
Proof. split; [done|]. unfold with_sla_status. simpl. apply delete_insert_eq. Qed.

(** C3, as the code has it.  The run of an aggregator is determined by the
    table alone.  The status, category and city aggregators leave the table
    as it is; [create_sla_summary] and [create_sla_charts] set the column
    SLA_Status of the table they are given and [analyze_tickets], which
    counts the patterns, may set the column Email Domain; none of them
    touches another column or the number of rows. *)
Theorem aggregators_and_the_table (w w' : world) :
  frame w = frame w' →
  ((create_ticket_status_tracker w).1 = (create_ticket_status_tracker w').1 ∧
   (create_ticket_status_tracker w).2 = w) ∧
  ((create_category_summary w).1 = (create_category_summary w').1 ∧
   (create_category_summary w).2 = w) ∧
  ((create_city_summary w).1 = (create_city_summary w').1 ∧
   (create_city_summary w).2 = w) ∧
  ((create_sla_summary w).1 = (create_sla_summary w').1 ∧
   (create_sla_summary w).2 = {| frame := with_sla_status (frame w); page := page w |} ∧
   (create_sla_charts w).2 = {| frame := with_sla_status (frame w); page := page w |} ∧
   index_len (with_sla_status (frame w)) = index_len (frame w) ∧
   delete Col.sla (columns (with_sla_status (frame w))) = delete Col.sla (columns (frame w))) ∧
  ((∃ shown, page (analyze_tickets w).2 = page w ++ shown ∧
             page (analyze_tickets w').2 = page w' ++ shown) ∧
   index_len (frame (analyze_tickets w).2) = index_len (frame w) ∧
   delete "Email Domain" (columns (frame (analyze_tickets w).2))
   = delete "Email Domain" (columns (frame w))).
Proof.
  intros Hw. repeat apply conj.
  - unfold create_ticket_status_tracker, mbind, M_bind, getitem. rewrite Hw.
    by destruct (df_getitem (frame w') Col.status).
  - apply reads_only_status_tracker.
  - unfold create_category_summary, mbind, M_bind, getitem. rewrite Hw.
    by destruct (df_getitem (frame w') Col.category).
  - apply reads_only_category_summary.
  - unfold create_city_summary, mbind, M_bind, getitem. rewrite Hw.
    by destruct (df_getitem (frame w') Col.city).
  - apply reads_only_city_summary.
  - apply (table_driven_sla_summary w w' Hw).
  - apply create_sla_summary_state.
  - apply create_sla_charts_state.
  - apply with_sla_status_others.
  - apply with_sla_status_others.
  - apply (table_driven_analyze_tickets w w' Hw).
  - apply (analyze_tickets_frame_cases w (λ df, index_len df = index_len (frame w))); done.
  - apply (analyze_tickets_frame_cases w
             (λ df, delete "Email Domain" (columns df) = delete "Email Domain" (columns (frame w))));
      [done|]. intros d. simpl. apply delete_insert_eq.
Qed.

Lemma aggregators_and_the_table_witness :
  (create_sla_summary sample_world).2
  = {| frame := with_sla_status sample_orders; page := [] |}.
Proof.
  apply (aggregators_and_the_table sample_world
           {| frame := sample_orders; page := [InfoBox "shown before"] |} eq_refl).
Defined.

(** [create_sla_summary] on the sample table: the table had no column
    SLA_Status before the call and has one after it. *)
Lemma create_sla_summary_adds_column :
  columns (frame sample_world) !! Col.sla = None ∧
  columns (frame (create_sla_summary sample_world).2) !! Col.sla
  = Some [Str "Within SLA"; Str "SLA Breached"; Str "NA"; Str "Within SLA"] ∧
  (create_sla_summary sample_world).2 ≠ sample_world.
Proof.
  split; [by vm_compute|]. split; [by vm_compute|].
  intros H. apply (f_equal (λ w, columns (frame w) !! Col.sla)) in H.
  vm_compute in H. discriminate H.
Qed.

(** ** The ticket script *)

(** C7.  The domain of ['user@example.com'] is ['example.com']; a missing
    value and the empty string give ['Unknown']. *)
Theorem extract_email_domain_examples :
  extract_email_domain (Str "user@example.com") = Ok (Str "example.com") ∧
  extract_email_domain NaN = Ok (Str "Unknown") ∧
  extract_email_domain (Str "") = Ok (Str "Unknown").
Proof. repeat split; vm_compute; reflexivity. Qed.

Lemma mask_sum_str_contains (subject : list cell) :
  mask_sum (str_contains order_re false false subject) = length (filter order_related subject).
Proof.
  unfold str_contains. rewrite mask_sum_fmap. f_equal. apply list_filter_iff.
  intros c. unfold order_related. destruct c as [|s| |]; simpl;
    try (split; [done | intros [s' [Heq _]]; discriminate Heq]).
  rewrite bool_decide_eq_true. split; [eauto|].
  intros [s' [Heq Hs]]. by injection Heq as <-.
Qed.

Lemma rmatch_lit {X} (p s : string) (g : option string) (f : option string → option X) :
  rmatch true (lit p) s g (λ _ g', f g') = if prefix_ci p s then f g else None.
Proof.
  revert s. induction p as [|a p IH]; intros s; simpl; [done|].
  destruct s as [|c s]; [done|]. unfold char_eqb.
  destruct (bool_decide (lower a = lower c)); simpl; [apply IH | done].
Qed.

Lemma search_order_re (s : string) :
  is_Some (re_search true order_re s) ↔
  contains_ci "order" s = true ∨ contains_ci "oid" s = true.
Proof.
  assert (Hhere : ∀ t, rmatch true order_re t None (λ _ g, Some g)
                       = if prefix_ci "order" t || prefix_ci "oid" t
                         then Some None else None).
  { intros t. unfold order_re. cbn [rmatch].
    rewrite !(rmatch_lit _ t None Some).
    assert (HO : prefix_ci "Order" t = prefix_ci "order" t) by (by destruct t).
    assert (HI : prefix_ci "OID" t = prefix_ci "oid" t).
    { destruct t as [|c1 [|c2 [|c3 t]]]; done. }
    rewrite HO, HI. by destruct (prefix_ci "order" t), (prefix_ci "oid" t). }
  induction s as [|c s IH]; cbn [re_search contains_ci]; rewrite Hhere.
  - destruct (prefix_ci "order" "") eqn:H1, (prefix_ci "oid" "") eqn:H2; simpl;
      split; try done; try (intros _; by eexists); intros [?|?]; done.
  - destruct (prefix_ci "order" (String c s)), (prefix_ci "oid" (String c s));
      cbn [orb]; try (split; [intros _; auto | intros _; by eexists]).
    apply IH.
Qed.



(** On the sample tickets two subjects are order-related. *)
Example order_related_sample :
  length (filter order_related
            [Str "Please void my invoice"; NaN; Str "Fwd: ORDER delayed"; Str "Hello"]) = 2%nat.
Proof. by vm_compute. Qed.

(** ** Tables that lack a column *)

Lemma plain_step_getitem (key : string) : plain_step (getitem key).
Proof.
  split; [by intros w|]. intros w e. unfold getitem, df_getitem. simpl.
  destruct (columns (frame w) !! key) eqn:Hk; [done|].
  intros [= <-]. left. eauto.
Qed.

Lemma plain_step_total {A} (f : world → A) : plain_step (λ w, (Ok (f w), w)).
Proof. split; [by intros w | by intros w e]. Qed.

Lemma plain_step_len : plain_step len.
Proof. apply (plain_step_total (λ w, index_len (frame w))). Qed.

Lemma plain_step_get_frame : plain_step get_frame.
Proof. apply (plain_step_total frame). Qed.

Lemma plain_step_mret {A} (a : A) : plain_step (mret a : M A).
Proof. apply (plain_step_total (λ _, a)). Qed.

Lemma plain_step_st (wd : widget) : plain_step (st wd).
Proof. split; [by intros w | by intros w e]. Qed.

Lemma numbers_of_raises (s : list cell) (e : exn) :
  numbers_of s = Raise e → ∃ msg, e = TypeError msg.
Proof.
  induction s as [|c s IH]; simpl; [done|].
  destruct c; try (intros [= <-]; eauto); [done|].
  destruct (numbers_of s); simpl; [done|]. intros [= <-]. auto.
Qed.

Lemma plain_step_series_mean (s : list cell) : plain_step (liftR (series_mean s)).
Proof.
  split; [by intros w|]. intros w e. unfold liftR, series_mean. simpl.
  destruct (numbers_of s) as [qs|e'] eqn:Hn; simpl; [done|].
  intros [= <-]. right. by apply (numbers_of_raises s).
Qed.

Lemma plain_step_bind {A B} (m : M A) (f : A → M B) :
  plain_step m → (∀ a, plain_step (f a)) → plain_step (m ≫= f).
Proof.
  intros [Hk Hr] Hf. split; [apply keeps_frame_bind; [done|]; intros a; apply Hf|].
  intros w e. unfold mbind, M_bind. specialize (Hk w). specialize (Hr w).
  destruct (m w) as [[a|e'] w']; simpl in *.
  - rewrite <- Hk. apply Hf.
  - intros [= <-]. by apply Hr.
Qed.

Lemma fails_without_getitem {A} (k : string) (f : list cell → M A) :
  fails_without k (getitem k ≫= f).
Proof.
  intros w Hk. rewrite getitem_bind, Hk. eexists. split; [done|]. left. eauto.
Qed.

Lemma fails_without_after {A B} (k : string) (m : M A) (f : A → M B) :
  plain_step m → (∀ a, fails_without k (f a)) → fails_without k (m ≫= f).
Proof.
  intros [Hkeep Hr] Hf w Hk. unfold mbind, M_bind.
  specialize (Hkeep w). specialize (Hr w).
  destruct (m w) as [[a|e] w']; simpl in *.
  - rewrite <- Hkeep. apply Hf. by rewrite Hkeep.
  - exists e. split; [done|]. by apply Hr.
Qed.

Lemma fails_without_first {A B} (k : string) (m : M A) (f : A → M B) :
  fails_without k m → fails_without k (m ≫= f).
Proof.
  intros Hm w Hk. destruct (Hm w Hk) as [e [He Hf]]. exists e. split; [|done].
  unfold mbind, M_bind. destruct (m w) as [[a|e'] w']; simpl in *; congruence.
Qed.

Create HintDb missing discriminated.
#[local] Hint Resolve plain_step_getitem plain_step_len plain_step_get_frame
  plain_step_mret plain_step_st plain_step_series_mean : missing.
#[local] Hint Extern 2 (plain_step (_ ≫= _)) => apply plain_step_bind; [|intros ?] : missing.

Lemma plain_step_hourly : plain_step create_hourly_sop_tracker.
Proof. unfold create_hourly_sop_tracker. auto with missing. Qed.

Lemma plain_step_status_tracker : plain_step create_ticket_status_tracker.
Proof. unfold create_ticket_status_tracker. auto with missing. Qed.

Lemma plain_step_category_summary : plain_step create_category_summary.
Proof. unfold create_category_summary. auto with missing. Qed.

#[local] Hint Resolve plain_step_hourly plain_step_status_tracker
  plain_step_category_summary : missing.

Lemma mapM_extract_raises (contact : list cell) (e : exn) :
  mapM extract_email_domain contact = Raise e → ∃ msg, e = TypeError msg.
Proof.
  induction contact as [|c contact IH]; simpl; [done|].
  destruct (extract_email_domain c) as [x|e'] eqn:Hc; simpl.
  - destruct (mapM extract_email_domain contact); simpl; [done|]. intros [= <-]. auto.
  - intros [= <-]. unfold extract_email_domain in Hc.
    destruct c as [|s| |]; simpl in Hc; try done; try (injection Hc as <-; eauto).
    by destruct (re_search false email_re s).
Qed.

Lemma plain_step_extract (contact : list cell) :
  plain_step (liftR (mapM extract_email_domain contact)).
Proof.
  split; [by intros w|]. intros w e. unfold liftR. simpl.
  intros He. right. by apply (mapM_extract_raises contact).
Qed.

Lemma fails_without_setitem {A} (k key : string) (col : list cell) (m : M A) :
  k ≠ key → fails_without k m → fails_without k (setitem key col ≫= λ _, m).
Proof.
  intros Hne Hm w Hk. unfold mbind, M_bind, setitem.
  destruct (Hm {| frame := df_setitem (frame w) key col; page := page w |})
    as [e [He Hf]]; [simpl; by rewrite lookup_insert_ne|].
  exists e. split; [done|]. destruct Hf as [[k' [-> Hk']]|]; [left|by right].
  exists k'. split; [done|]. simpl in Hk'. by apply lookup_insert_None in Hk' as [? _].
Qed.

Lemma fails_without_category : fails_without Col.category create_category_summary.
Proof. apply fails_without_getitem. Qed.

Lemma fails_without_city : fails_without Col.city create_city_summary.
Proof. apply fails_without_getitem. Qed.

#[local] Hint Resolve plain_step_extract fails_without_category fails_without_city : missing.

(** Walks down a chain of binds to the step that reads the missing column. *)
Ltac find_failing_step :=
  repeat first
    [ apply fails_without_getitem
    | apply fails_without_first; solve [auto with missing]
    | apply fails_without_setitem; [done|]
    | apply fails_without_after; [solve [auto 10 with missing] | intros ?] ].

Lemma analyze_tickets_missing (k : string) :
  k ∈ ticket_columns → fails_without k analyze_tickets.
Proof.
  unfold ticket_columns. rewrite !elem_of_cons, elem_of_nil.
  intros [-> | [-> | [-> | []]]]; unfold analyze_tickets; find_failing_step.
Qed.

Lemma ticket_analysis_main_handles (r : result DataFrame) (w : world) :
  (ticket_analysis_main (Some r) w).1 = Ok ().
Proof.
  unfold ticket_analysis_main, try_except.
  match goal with |- (match ?b with _ => _ end).1 = _ => destruct b as [[[]|e] w'] end; done.
Qed.

Lemma calculate_sla_status_absent (row : gmap string cell) (k : string) :
  k ∈ [Col.create; Col.delivered; Col.category] → row !! k = None →
  calculate_sla_status row = "NA".
Proof.
  rewrite !elem_of_cons, elem_of_nil.
  intros [-> | [-> | [-> | []]]] Hk; unfold calculate_sla_status, sla_try, row_getitem;
    rewrite ?Hk; [done| |].
  - destruct (row !! Col.create) as [c|]; [|done]. by destruct c.
  - destruct (row !! Col.create) as [c|]; [|done].
    destruct (row !! Col.delivered) as [d|]; [|by destruct c].
    destruct c as [| | |[vc [zc|]]], d as [| | |[vd [zd|]]]; done.
Qed.

Section loading.
Variable to_datetime_dmy : cell → option Timestamp.
Variable to_datetime_iso : cell → option Timestamp.

Lemma load_and_process_data_cases (csv : DataFrame) :
  match load_and_process_data to_datetime_dmy to_datetime_iso csv with
  | Ok df =>
      Forall (λ k, is_Some (columns csv !! k)) loader_columns ∧
      (∀ k, columns df !! k = None → columns csv !! k = None) ∧
      (∀ k, k ∈ [Col.total_value; Col.category; Col.city] →
            columns df !! k = columns csv !! k)
  | Raise e =>
      ∃ k, e = KeyError k ∧ k ∈ loader_columns ∧ columns csv !! k = None
  end.
Proof.
  unfold load_and_process_data, loader_columns, df_getitem, df_setitem. simpl.
  repeat first
    [ rewrite lookup_insert_eq
    | rewrite lookup_insert_ne by done
    | progress cbn [mbind result_bind]
    | match goal with
      | |- context [columns csv !! ?k] =>
          lazymatch goal with
          | H : columns csv !! k = _ |- _ => rewrite H
          | _ => destruct (columns csv !! k) eqn:?
          end
      end; simpl ].
  all: try (eexists; split; [reflexivity|]; split; [|done]; set_solver).
  split; [repeat apply Forall_cons_2; eauto using Forall_nil_2|].
  split.
  - intros k Hk. repeat (apply lookup_insert_None in Hk as [Hk _]). done.
  - intros k. rewrite !elem_of_cons, elem_of_nil.
    intros [-> | [-> | [-> | []]]]; by rewrite !lookup_insert_ne.
Qed.

Lemma dataprocess4_main_missing (csv : DataFrame) (w : world) (k : string) :
  k ∈ order_columns → columns csv !! k = None →
  ∃ e, (dataprocess4_main to_datetime_dmy to_datetime_iso (Some csv) w).1 = Raise e ∧
       lookup_or_type_failure csv e.
Proof.
  intros Hk Hmiss. unfold dataprocess4_main.
  unfold mbind at 1, M_bind at 1, liftR at 1.
  pose proof (load_and_process_data_cases csv) as Hload.
  destruct (load_and_process_data to_datetime_dmy to_datetime_iso csv) as [df|e].
  - destruct Hload as [Hall [Hsub Hsame]].
    unfold order_columns in Hk. apply elem_of_app in Hk as [Hk|Hk].
    { rewrite Forall_forall in Hall. specialize (Hall k Hk).
      rewrite Hmiss in Hall. by destruct Hall. }
    unfold mbind at 1, M_bind at 1, put_frame at 1.
    match goal with |- ∃ e, (?m ?w1).1 = _ ∧ _ =>
      assert (Hm : fails_without k m); [|destruct (Hm w1) as [e [He Hf]]] end.
    + revert Hk. rewrite !elem_of_cons, elem_of_nil.
      intros [-> | [-> | [-> | []]]]; find_failing_step.
    + simpl. by rewrite Hsame.
    + exists e. split; [done|]. destruct Hf as [[k' [-> Hk']]|]; [left|by right].
      exists k'. split; [done|]. by apply Hsub.
  - destruct Hload as [k' [-> [_ Hk']]]. eexists. split; [done|]. left. eauto.
Qed.
End loading.

Lemma ticket_analysis_main_missing (df : DataFrame) (w : world) (k : string) :
  k ∈ ticket_columns → columns df !! k = None →
  ∃ shown e,
    page (ticket_analysis_main (Some (Ok df)) w).2
    = page w ++ shown ++ [ErrorBox ("Error reading the file: " +:+ exn_str e)] ∧
    lookup_or_type_failure df e.
Proof.
  intros Hk Hmiss. unfold ticket_analysis_main, try_except.
  unfold mbind at 1 2, M_bind at 1 2, liftR, put_frame. cbn [frame page].
  set (w1 := {| frame := df; page := page w |}).
  destruct (analyze_tickets_missing k Hk w1 Hmiss) as [e [He Hf]].
  destruct (table_driven_analyze_tickets w1 w1 eq_refl) as [_ [_ [shown [Hp _]]]].
  destruct (analyze_tickets w1) as [r w2]. simpl in He, Hp. subst r.
  exists shown, e. split; [|done]. simpl. by rewrite Hp, <- app_assoc.
Qed.




(** * Further properties *)

(** ** The SLA classifier, continued *)

Lemma calculate_sla_status_reads (row row' : gmap string cell) :
  row !! Col.create = row' !! Col.create →
  row !! Col.delivered = row' !! Col.delivered →
  row !! Col.category = row' !! Col.category →
  calculate_sla_status row = calculate_sla_status row'.
Proof.
  intros H1 H2 H3. unfold calculate_sla_status, sla_try, row_getitem.
  by rewrite H1, H2, H3.
Qed.

Lemma sla_status_defined (row : gmap string cell) :
  calculate_sla_status row ≠ "NA" →
  ∃ c d cat, row !! Col.create = Some (Time c) ∧
             row !! Col.delivered = Some (Time d) ∧
             row !! Col.category = Some cat.
Proof.
  unfold calculate_sla_status, sla_try, row_getitem.
  destruct (row !! Col.create) as [[|sc|qc|c]|]; try done;
    destruct (row !! Col.delivered) as [[|sd|qd|d]|]; try done;
    try (simpl; destruct (tzinfo c); simpl; done).
  destruct (row !! Col.category) as [cat|]; [intros _; eauto 10|].
  destruct c as [vc [zc|]], d as [vd [zd|]]; simpl; done.
Qed.

(** X1.  A status other than ['NA'] is only given to a row that holds a
    timestamp in both date columns and an entry in the category column: an
    entry of another kind in a date column (a date left as text, a number)
    gives ['NA'], the exception being swallowed. *)
Theorem sla_status_needs_timestamps (row : gmap string cell) :
  calculate_sla_status row ≠ "NA" →
  ∃ c d cat,
    row !! Col.create = Some (Time c) ∧
    row !! Col.delivered = Some (Time d) ∧
    row !! Col.category = Some cat ∧
    calculate_sla_status row =
      (if bool_decide (elapsed_hours c d ≤ Qc_of_Z (sla_threshold cat))%Qc
       then "Within SLA" else "SLA Breached").
Proof.
  intros Hna. destruct (sla_status_defined row Hna) as [c [d [cat [Hc [Hd Hcat]]]]].
  exists c, d, cat. repeat split; try done.
  unfold calculate_sla_status. by rewrite (sla_try_timestamps row c d cat).
Qed.

Lemma sla_status_needs_timestamps_witness :
  ∃ c d cat,
    order_row (naive 0) (naive hour_ns) (Str "F&B") !! Col.create = Some (Time c) ∧
    order_row (naive 0) (naive hour_ns) (Str "F&B") !! Col.delivered = Some (Time d) ∧
    order_row (naive 0) (naive hour_ns) (Str "F&B") !! Col.category = Some cat ∧
    calculate_sla_status (order_row (naive 0) (naive hour_ns) (Str "F&B")) =
      (if bool_decide (elapsed_hours c d ≤ Qc_of_Z (sla_threshold cat))%Qc
       then "Within SLA" else "SLA Breached").
Proof.
  apply (sla_status_needs_timestamps (order_row (naive 0) (naive hour_ns) (Str "F&B"))).
  vm_compute. discriminate.
Defined.

Lemma elapsed_hours_mono (c d d' : Timestamp) :
  wall_clock d ≤ wall_clock d' → (elapsed_hours c d ≤ elapsed_hours c d')%Qc.
Proof.
  intros Hd. rewrite !elapsed_hours_ns. unfold Qcdiv.
  apply Qcmult_le_compat_r.
  - apply (proj1 (Z2Qc_inj_le _ _)). lia.
  - apply Qcle_alt. by vm_compute.
Qed.

Lemma sla_threshold_cases (cat : cell) :
  sla_threshold cat = 1 ∨ sla_threshold cat = 3 ∨ sla_threshold cat = 120.
Proof. unfold sla_threshold. repeat case_decide; auto. Qed.



(** X3.  A timestamp with a zone counts by its local wall-clock time: the
    status of a row does not change when the creation or the delivery
    timestamp is replaced by its reading without zone. *)
Theorem sla_status_ignores_zone (row : gmap string cell) (k : string) (t : Timestamp) :
  k = Col.create ∨ k = Col.delivered →
  row !! k = Some (Time t) →
  calculate_sla_status (<[k := Time (tz_localize_none t)]> row) = calculate_sla_status row.
Proof.
  intros [-> | ->] Ht; unfold calculate_sla_status, sla_try, row_getitem;
    rewrite ?lookup_insert_eq, ?lookup_insert_ne by done; rewrite Ht.
  - destruct (row !! Col.delivered) as [[|sd|qd|[vd [zd|]]]|], t as [vc [zc|]];
      simpl; rewrite ?Z.add_0_r; done.
  - destruct (row !! Col.create) as [[|sd|qd|[vc [zc|]]]|], t as [vd [zd|]];
      simpl; rewrite ?Z.add_0_r; done.
Qed.

Lemma sla_status_ignores_zone_witness :
  calculate_sla_status
    (<[Col.delivered := Time (tz_localize_none {| value := 0; tzinfo := Some hour_ns |})]>
       (order_row (naive 0) (Time {| value := 0; tzinfo := Some hour_ns |}) (Str "F&B")))
  = calculate_sla_status
      (order_row (naive 0) (Time {| value := 0; tzinfo := Some hour_ns |}) (Str "F&B")).
Proof.
  apply (sla_status_ignores_zone
           (order_row (naive 0) (Time {| value := 0; tzinfo := Some hour_ns |}) (Str "F&B"))
           Col.delivered {| value := 0; tzinfo := Some hour_ns |});
    [by right | reflexivity].
Defined.

(** ** The SLA summary, continued *)

Lemma df_row_setitem_ne (df : DataFrame) (key k : string) (col : list cell) (i : nat) :
  k ≠ key → df_row (df_setitem df key col) i !! k = df_row df i !! k.
Proof. intros Hne. unfold df_row, df_setitem. simpl. by rewrite !lookup_fmap, lookup_insert_ne. Qed.

Lemma sla_statuses_again (df : DataFrame) (col : list cell) :
  df_apply calculate_sla_status (df_setitem df Col.sla col)
  = df_apply calculate_sla_status df.
Proof.
  unfold df_apply. simpl. apply list_fmap_ext. intros _ i _.
  apply calculate_sla_status_reads; by apply df_row_setitem_ne.
Qed.

Lemma with_sla_status_idemp (df : DataFrame) :
  with_sla_status (with_sla_status df) = with_sla_status df.
Proof.
  unfold with_sla_status at 1 2. rewrite sla_statuses_again.
  unfold with_sla_status, df_setitem. simpl. f_equal. apply insert_insert_eq.
Qed.

Lemma create_sla_summary_unfold (w : world) :
  create_sla_summary w =
  (getitem Col.category ≫= λ cat, for_fold sla_summary_step [] (unique cat))
    {| frame := with_sla_status (frame w); page := page w |}.
Proof. reflexivity. Qed.

(** X4.  The SLA status of a row does not depend on the column SLA_Status,
    so computing it again changes nothing: [create_sla_charts] after
    [create_sla_summary], as [main] calls them, leaves the table as
    [create_sla_summary] left it, and a second [create_sla_summary] returns
    the same summaries. *)
Theorem sla_status_recomputed (w : world) :
  let w1 := (create_sla_summary w).2 in
  (create_sla_charts w1).2 = w1 ∧
  create_sla_summary w1 = create_sla_summary w.
Proof.
  cbn zeta. rewrite create_sla_summary_state. split.
  - rewrite create_sla_charts_state. simpl. by rewrite with_sla_status_idemp.
  - rewrite !create_sla_summary_unfold. simpl. by rewrite with_sla_status_idemp.
Qed.

(** *** Bounds of a percentage *)

Lemma round_half_even_bounds (q : Qc) (N : Z) :
  0 ≤ Qnum q → Qnum q ≤ N * Zpos (Qden q) → 0 ≤ round_half_even q ≤ N.
Proof.
  unfold round_half_even.
  set (n := Qnum q). set (d := Zpos (Qden q)). intros H0 HN.
  assert (Hd : 0 < d) by (unfold d; lia).
  pose proof (Z.div_mod n d ltac:(lia)) as Hdm.
  pose proof (Z.mod_pos_bound n d Hd) as Hm.
  assert (0 ≤ n `div` d) by (apply Z.div_pos; lia).
  assert (n `div` d ≤ N) by (apply Z.div_le_upper_bound; lia).
  repeat case_bool_decide; destruct (Z.even (n `div` d)); nia.
Qed.

Lemma share_bounds (c n : nat) :
  (c ≤ n)%nat → (0 < n)%nat →
  let y := (Qc_of_Z (Z.of_nat c) / Qc_of_Z (Z.of_nat n) * Qc_of_Z 100 * Qc_of_Z 100)%Qc in
  0 ≤ Qnum y ∧ Qnum y ≤ 10000 * Zpos (Qden y).
Proof.
  intros Hc Hn y.
  assert (Hy : (this y == inject_Z (Z.of_nat c * 10000) / inject_Z (Z.of_nat n))%Q).
  { unfold y, Qcmult, Qcdiv, Qcinv, Qcmult. simpl this.
    repeat (rewrite ?Qred_correct; simpl this).
    rewrite inject_Z_mult. change (inject_Z 100) with (100 # 1)%Q.
    change (inject_Z 10000) with (10000 # 1)%Q. field.
    intros H. apply (Qeq_bool_neq (inject_Z (Z.of_nat n)) 0); [|done].
    unfold Qeq_bool. simpl. destruct (Z.of_nat n) eqn:Hz; [lia|done..]. }
  assert (Hpos : (0 < inject_Z (Z.of_nat n))%Q).
  { change 0%Q with (inject_Z 0). rewrite <- Zlt_Qlt. lia. }
  assert (H0 : (0 <= this y)%Q).
  { rewrite Hy. apply Qle_shift_div_l; [done|]. rewrite Qmult_0_l.
    change 0%Q with (inject_Z 0). rewrite <- Zle_Qle. lia. }
  assert (H1 : (this y <= 10000 # 1)%Q).
  { rewrite Hy. apply Qle_shift_div_r; [done|].
    change (10000 # 1)%Q with (inject_Z 10000).
    rewrite <- inject_Z_mult, <- Zle_Qle. lia. }
  clearbody y. destruct y as [[a b] Hcanon]. unfold Qle in H0, H1. simpl in *. lia.
Qed.

Lemma percentage_bounds (c n : nat) :
  (c ≤ n)%nat → (0 < n)%nat →
  (Qc_of_Z 0 ≤ percentage c n)%Qc ∧ (percentage c n ≤ Qc_of_Z 100)%Qc.
Proof.
  intros Hc Hn. destruct (share_bounds c n Hc Hn) as [H0 H1]. cbn zeta in H0, H1.
  unfold percentage, round2.
  pose proof (round_half_even_bounds _ 10000 H0 H1) as [Hz0 Hz1].
  set (z := round_half_even _) in *. clearbody z.
  unfold Qcle, Qcdiv, Qcinv, Qcmult. simpl this.
  repeat (rewrite ?Qred_correct; simpl this).
  change (inject_Z 100) with (100 # 1)%Q. change (/ (100 # 1))%Q with (1 # 100)%Q.
  change (inject_Z 0) with 0%Q.
  unfold Qle, Qmult, inject_Z. simpl. lia.
Qed.

Lemma sla_table_wf (within breached n : nat) : wf_frame (sla_table within breached n).
Proof.
  unfold wf_frame, sla_table, df_setitem, new_frame. simpl.
  repeat (apply map_Forall_insert_2; [done|]). apply map_Forall_empty.
Qed.

Lemma sla_table_columns (within breached n : nat) :
  dom (columns (sla_table within breached n))
  = ({["Status"; "Count"; "Percentage"]} : gset string).
Proof.
  unfold sla_table, df_setitem, new_frame. simpl.
  rewrite !dom_insert_L, dom_empty_L. set_solver.
Qed.

Lemma status_count_le_valid (k : cell) (rows : list (cell * string)) (st : string) :
  st ≠ "NA" → (status_count st k rows ≤ valid_count k rows)%nat.
Proof.
  intros Hst. unfold status_count, valid_count.
  rewrite <- (filter_eq_after_ne _ st "NA" Hst). apply length_filter.
Qed.

(** X5.  Every summary table returned by [create_sla_summary] has the two
    rows Within SLA and SLA Breached, exactly the columns Status, Count and
    Percentage with one entry per row, and percentages between 0 and
    100. *)
Theorem sla_summary_tables (w : world) (cat : list cell) :
  wf_frame (frame w) →
  columns (frame w) !! Col.category = Some cat →
  ∃ summaries,
    (create_sla_summary w).1 = Ok summaries ∧
    ∀ k s, (k, s) ∈ summaries →
      index_len s = 2%nat ∧
      wf_frame s ∧
      dom (columns s) = ({["Status"; "Count"; "Percentage"]} : gset string) ∧
      df_getitem s "Status" = Ok [Str "Within SLA"; Str "SLA Breached"] ∧
      ∃ p_within p_breached,
        df_getitem s "Percentage" = Ok [Num p_within; Num p_breached] ∧
        (Qc_of_Z 0 ≤ p_within)%Qc ∧ (p_within ≤ Qc_of_Z 100)%Qc ∧
        (Qc_of_Z 0 ≤ p_breached)%Qc ∧ (p_breached ≤ Qc_of_Z 100)%Qc.
Proof.
  intros Hwf Hcat.
  rewrite (create_sla_summary_run w cat Hcat (wf_frame_length _ _ _ Hwf Hcat)).
  eexists. split; [reflexivity|]. intros k s Hks.
  apply summaries_elem in Hks as [Hks | [Hpos ->]]; [by apply elem_of_nil in Hks|].
  split; [done|]. split; [apply sla_table_wf|]. split; [apply sla_table_columns|].
  split; [reflexivity|]. eexists _, _. split; [reflexivity|].
  destruct (percentage_bounds (status_count "Within SLA" k (sla_rows (frame w) cat))
              (valid_count k (sla_rows (frame w) cat))) as [? ?];
    [by apply status_count_le_valid | done |].
  destruct (percentage_bounds (status_count "SLA Breached" k (sla_rows (frame w) cat))
              (valid_count k (sla_rows (frame w) cat))) as [? ?];
    [by apply status_count_le_valid | done |].
  done.
Qed.

Lemma sla_summary_tables_witness :
  ∃ summaries,
    (create_sla_summary sample_world).1 = Ok summaries ∧
    ∀ k s, (k, s) ∈ summaries →
      index_len s = 2%nat ∧
      wf_frame s ∧
      dom (columns s) = ({["Status"; "Count"; "Percentage"]} : gset string) ∧
      df_getitem s "Status" = Ok [Str "Within SLA"; Str "SLA Breached"] ∧
      ∃ p_within p_breached,
        df_getitem s "Percentage" = Ok [Num p_within; Num p_breached] ∧
        (Qc_of_Z 0 ≤ p_within)%Qc ∧ (p_within ≤ Qc_of_Z 100)%Qc ∧
        (Qc_of_Z 0 ≤ p_breached)%Qc ∧ (p_breached ≤ Qc_of_Z 100)%Qc.
Proof.
  apply (sla_summary_tables sample_world
           [Str "F&B"; Str "F&B"; Str "Grocery"; NaN] sample_orders_wf eq_refl).
Defined.

Lemma dict_set_fresh {V} (d : list (cell * V)) (k : cell) (v : V) :
  k ∉ d.*1 → dict_set d k v = d ++ [(k, v)].
Proof.
  induction d as [|[k0 v0] d IH]; csimpl; [done|].
  intros [Hne Hk]%not_elem_of_cons. rewrite bool_decide_false by done. by rewrite IH.
Qed.

Lemma summaries_in_order (rows : list (cell * string)) (ks : list cell)
    (acc : list (cell * DataFrame)) :
  NoDup ks → (∀ k, k ∈ ks → k ∉ acc.*1) →
  (fold_left (summary_step rows) ks acc).*1
  = acc.*1 ++ filter (λ k, 0 < valid_count k rows)%nat ks.
Proof.
  intros Hnd. revert acc. induction Hnd as [|k ks Hk Hnd IH]; intros acc Hacc; simpl.
  - by rewrite app_nil_r.
  - unfold summary_step at 2. case_bool_decide as Hpos.
    + rewrite filter_cons_True by done. rewrite IH.
      * rewrite dict_set_fresh by (apply Hacc; left).
        by rewrite fmap_app, <- app_assoc.
      * intros k' Hk'. rewrite dict_set_keys. intros [-> | Hin]; [done|].
        by apply (Hacc k'); [right|].
    + rewrite filter_cons_False by done. apply IH.
      intros k' Hk'. apply Hacc. by right.
Qed.

(** X6.  The summaries are listed in the order in which their categories
    first appear in the table: the keys of the result are the distinct
    values of the category column, in that order, without those that have
    no row with a status other than ['NA']. *)
Theorem sla_summaries_in_table_order (w : world) (cat : list cell) :
  wf_frame (frame w) →
  columns (frame w) !! Col.category = Some cat →
  ∃ summaries,
    (create_sla_summary w).1 = Ok summaries ∧
    summaries.*1
    = filter (λ k, 0 < valid_count k (sla_rows (frame w) cat))%nat (unique cat).
Proof.
  intros Hwf Hcat.
  rewrite (create_sla_summary_run w cat Hcat (wf_frame_length _ _ _ Hwf Hcat)).
  eexists. split; [reflexivity|].
  rewrite summaries_in_order; [done | apply NoDup_unique |].
  intros k _. apply not_elem_of_nil.
Qed.

Lemma sla_summaries_in_table_order_witness :
  ∃ summaries,
    (create_sla_summary sample_world).1 = Ok summaries ∧
    summaries.*1
    = filter (λ k, 0 < valid_count k
                         (sla_rows sample_orders [Str "F&B"; Str "F&B"; Str "Grocery"; NaN]))%nat
             (unique [Str "F&B"; Str "F&B"; Str "Grocery"; NaN]).
Proof.
  apply (sla_summaries_in_table_order sample_world
           [Str "F&B"; Str "F&B"; Str "Grocery"; NaN] sample_orders_wf eq_refl).
Defined.

(** ** The loader *)

Section loaded_table.
Variable to_datetime_dmy : cell → option Timestamp.
Variable to_datetime_iso : cell → option Timestamp.

Lemma load_and_process_data_ok (csv : DataFrame) (c d s r x st : list cell) :
  columns csv !! Col.create = Some c →
  columns csv !! Col.delivered = Some d →
  columns csv !! Col.shipped = Some s →
  columns csv !! Col.ready = Some r →
  columns csv !! Col.cancelled = Some x →
  columns csv !! Col.status = Some st →
  load_and_process_data to_datetime_dmy to_datetime_iso csv =
  Ok {| index_len := index_len csv;
        columns :=
          <[Col.progress := series_map status_mapping st]>
          (<[Col.hour := dt_hour (to_datetime to_datetime_dmy c)]>
          (<[Col.cancelled := dt_tz_localize_none (to_datetime to_datetime_iso x)]>
          (<[Col.ready := dt_tz_localize_none (to_datetime to_datetime_iso r)]>
          (<[Col.shipped := dt_tz_localize_none (to_datetime to_datetime_iso s)]>
          (<[Col.delivered := dt_tz_localize_none (to_datetime to_datetime_iso d)]>
          (<[Col.create := to_datetime to_datetime_dmy c]> (columns csv))))))) |}.
Proof.
  intros Hc Hd Hs Hr Hx Hst.
  unfold load_and_process_data, df_getitem, df_setitem. simpl.
  repeat first
    [ rewrite lookup_insert_eq
    | rewrite lookup_insert_ne by done
    | progress cbn [mbind result_bind]
    | rewrite Hc | rewrite Hd | rewrite Hs | rewrite Hr | rewrite Hx | rewrite Hst ].
  reflexivity.
Qed.

Lemma loader_columns_present (csv : DataFrame) :
  Forall (λ k, is_Some (columns csv !! k)) loader_columns →
  ∃ c d s r x st,
    columns csv !! Col.create = Some c ∧ columns csv !! Col.delivered = Some d ∧
    columns csv !! Col.shipped = Some s ∧ columns csv !! Col.ready = Some r ∧
    columns csv !! Col.cancelled = Some x ∧ columns csv !! Col.status = Some st.
Proof.
  unfold loader_columns. rewrite !Forall_cons.
  intros [[c Hc] [[d Hd] [[s Hs] [[r Hr] [[x Hx] [[st Hst] _]]]]]].
  by exists c, d, s, r, x, st.
Qed.
End loaded_table.

Lemma length_to_datetime (parse : cell → option Timestamp) (s : list cell) :
  length (to_datetime parse s) = length s.
Proof. unfold to_datetime. by rewrite length_fmap. Qed.

Lemma Forall_dt_tz_localize_none (s : list cell) :
  Forall naive_or_missing (dt_tz_localize_none s).
Proof.
  unfold dt_tz_localize_none. apply Forall_fmap, Forall_forall. intros c _. simpl.
  destruct c as [| | |t]; try (by left). right. by eexists.
Qed.

Lemma dt_hour_spec (s : list cell) :
  Forall (λ c, c = NaN ∨ ∃ t, c = Time t) s → Forall2 hour_of s (dt_hour s).
Proof.
  unfold dt_hour. intros Hs. apply Forall2_fmap_r, Forall_Forall2_diag.
  eapply Forall_impl; [exact Hs|]. intros c [-> | [t ->]]; [by left|]. right.
  exists t, ((wall_clock t `div` hour_ns) `div` 24),
         ((wall_clock t `div` hour_ns) `mod` 24), (wall_clock t `mod` hour_ns).
  split; [done|]. split; [done|].
  pose proof (Z.div_mod (wall_clock t) hour_ns) as H1.
  pose proof (Z.div_mod (wall_clock t `div` hour_ns) 24 ltac:(lia)) as H2.
  pose proof (Z.mod_pos_bound (wall_clock t) hour_ns) as H3.
  pose proof (Z.mod_pos_bound (wall_clock t `div` hour_ns) 24 ltac:(lia)) as H4.
  change hour_ns with 3600000000000 in *. lia.
Qed.

Lemma Forall_to_datetime (parse : cell → option Timestamp) (s : list cell) :
  Forall (λ c, c = NaN ∨ ∃ t, c = Time t) (to_datetime parse s).
Proof.
  unfold to_datetime. apply Forall_fmap, Forall_forall. intros c _. simpl.
  destruct (parse c); eauto.
Qed.


Lemma sample_csv_columns : Forall (λ k, is_Some (columns sample_csv !! k)) loader_columns.
Proof. apply (bool_decide_unpack _). vm_compute. exact I. Defined.


(** X8.  After loading, the columns Delivered At, Shipped At, Ready to Ship
    At and Cancelled At hold only timestamps without zone and missing
    values. *)
Theorem loaded_dates_are_naive (to_datetime_dmy to_datetime_iso : cell → option Timestamp)
    (csv df : DataFrame) (k : string) (col : list cell) :
  load_and_process_data to_datetime_dmy to_datetime_iso csv = Ok df →
  k ∈ [Col.delivered; Col.shipped; Col.ready; Col.cancelled] →
  columns df !! k = Some col →
  Forall naive_or_missing col.
Proof.
  intros Hload Hk Hcol.
  pose proof (load_and_process_data_cases to_datetime_dmy to_datetime_iso csv) as Hcases.
  rewrite Hload in Hcases. destruct Hcases as [Hcols _].
  destruct (loader_columns_present csv Hcols) as [c [d [s [r [x [st H]]]]]].
  destruct H as [Hc [Hd [Hs [Hr [Hx Hst]]]]].
  rewrite (load_and_process_data_ok _ _ csv c d s r x st) in Hload by done.
  injection Hload as <-. cbn [columns] in Hcol.
  revert Hk. rewrite !elem_of_cons, elem_of_nil.
  intros [-> | [-> | [-> | [-> | []]]]];
    rewrite ?lookup_insert_eq, ?lookup_insert_ne in Hcol by done;
    repeat (rewrite lookup_insert_ne in Hcol by done);
    rewrite lookup_insert_eq in Hcol; injection Hcol as <-;
    apply Forall_dt_tz_localize_none.
Qed.

Lemma loaded_dates_are_naive_witness :
  Forall naive_or_missing [naive (11 * hour_ns); NaN; NaN].
Proof.
  eapply (loaded_dates_are_naive sample_dmy sample_iso sample_csv _ Col.delivered).
  - reflexivity.
  - apply (bool_decide_unpack _). vm_compute. exact I.
  - reflexivity.
Defined.

(** X9.  After loading, Order Hour holds for each row the hour of the day
    of its creation time, a whole number from 0 to 23, and is missing
    exactly where the creation time did not parse. *)
Theorem loaded_order_hour (to_datetime_dmy to_datetime_iso : cell → option Timestamp)
    (csv df : DataFrame) :
  load_and_process_data to_datetime_dmy to_datetime_iso csv = Ok df →
  ∃ created hours,
    columns df !! Col.create = Some created ∧
    columns df !! Col.hour = Some hours ∧
    Forall2 hour_of created hours.
Proof.
  intros Hload.
  pose proof (load_and_process_data_cases to_datetime_dmy to_datetime_iso csv) as Hcases.
  rewrite Hload in Hcases. destruct Hcases as [Hcols _].
  destruct (loader_columns_present csv Hcols) as [c [d [s [r [x [st H]]]]]].
  destruct H as [Hc [Hd [Hs [Hr [Hx Hst]]]]].
  rewrite (load_and_process_data_ok _ _ csv c d s r x st) in Hload by done.
  injection Hload as <-. cbn [columns].
  exists (to_datetime to_datetime_dmy c), (dt_hour (to_datetime to_datetime_dmy c)).
  split; [repeat (rewrite lookup_insert_ne by done); by rewrite lookup_insert_eq|].
  split; [repeat (rewrite lookup_insert_ne by done); by rewrite lookup_insert_eq|].
  apply dt_hour_spec, Forall_to_datetime.
Qed.

Lemma loaded_order_hour_witness :
  Forall2 hour_of
    [naive (10 * hour_ns + 30 * minute_ns); naive (23 * hour_ns + 59 * minute_ns); NaN]
    [Num (Qc_of_Z 10); Num (Qc_of_Z 23); NaN].
Proof.
  destruct (loaded_order_hour sample_dmy sample_iso sample_csv _ eq_refl)
    as [created [hours [Hc [Hh H]]]].
  vm_compute in Hc, Hh. injection Hc as <-. injection Hh as <-. exact H.
Defined.

(** ** The distribution charts, continued *)

#[global] Instance count_ge_total : Total count_ge.
Proof. intros p q. unfold count_ge. lia. Qed.

Lemma value_counts_Permutation (s : list cell) :
  value_counts s ≡ₚ (λ v, (v, occurrences v s)) <$> unique (dropna s).
Proof. apply merge_sort_Permutation. Qed.

Lemma value_counts_keys (s : list cell) : (value_counts s).*1 ≡ₚ unique (dropna s).
Proof.
  rewrite value_counts_Permutation, <- list_fmap_compose.
  induction (unique (dropna s)) as [|v u IH]; csimpl; [done|]. by rewrite IH.
Qed.

Lemma isna_false (c : cell) : isna c = false ↔ c ≠ NaN.
Proof. by destruct c. Qed.

Lemma elem_of_unique_dropna (s : list cell) (v : cell) :
  v ∈ unique (dropna s) ↔ v ∈ s ∧ v ≠ NaN.
Proof.
  rewrite unique_elem_of. unfold dropna. rewrite list_elem_of_filter, isna_false. tauto.
Qed.

Lemma occurrences_pos (v : cell) (s : list cell) : v ∈ s → (0 < occurrences v s)%nat.
Proof.
  intros Hv. unfold occurrences.
  assert (Hin : v ∈ filter (λ c, c = v) s) by (by apply list_elem_of_filter).
  destruct (filter (λ c, c = v) s); [by apply elem_of_nil in Hin | simpl; lia].
Qed.

Lemma value_counts_elem (s : list cell) (v : cell) (n : nat) :
  (v, n) ∈ value_counts s ↔ (v ∈ s ∧ v ≠ NaN) ∧ n = occurrences v s.
Proof.
  rewrite value_counts_Permutation, list_elem_of_fmap. split.
  - intros [v' [[= -> ->] Hv]]. by rewrite <- elem_of_unique_dropna.
  - intros [Hv ->]. exists v. by rewrite elem_of_unique_dropna.
Qed.

Lemma pairs_distribution (s : list cell) (vc : list (cell * nat)) :
  vc ≡ₚ value_counts s → distribution_of s vc.*1 vc.*2.
Proof.
  intros Hvc. split; [|split; [|split]].
  - rewrite Hvc, value_counts_keys. apply NoDup_unique.
  - intros v. by rewrite Hvc, value_counts_keys, elem_of_unique_dropna.
  - by rewrite !length_fmap.
  - intros i v n Hv Hn. rewrite list_lookup_fmap in Hv. rewrite list_lookup_fmap in Hn.
    destruct (vc !! i) as [[v' n']|] eqn:Hi; [|done].
    injection Hv as ->. injection Hn as ->.
    apply list_elem_of_lookup_2 in Hi. rewrite Hvc in Hi.
    apply value_counts_elem in Hi as [[Hin _] ->]. split; [done|].
    by apply occurrences_pos.
Qed.

Lemma value_counts_descending (s : list cell) : Sorted ge (value_counts s).*2.
Proof.
  apply (Sorted_fmap snd count_ge); [by intros [? ?] [? ?] |].
  unfold value_counts. apply (Sorted_merge_sort count_ge).
Qed.



(** On the sample table: Pune twice, Delhi once, nothing for the missing
    city. *)
Example city_chart_sample :
  data <$> (create_city_summary sample_world).1
  = Ok (Pie [Str "Pune"; Str "Delhi"] [2%nat; 1%nat]).
Proof. reflexivity. Qed.

(** ** The chart of the hours *)

Lemma cell_leb_total (a b : cell) : cell_leb a b = true ∨ cell_leb b a = true.
Proof.
  destruct a as [|x|x|x], b as [|y|y|y]; simpl; auto;
    rewrite ?bool_decide_eq_true.
  - apply String.leb_total.
  - destruct (Qc_le_total x y); auto.
  - lia.
Qed.

#[global] Instance label_le_total : Total label_le.
Proof.
  intros p q. unfold label_le.
  destruct (cell_leb_total p.1 q.1) as [H|H]; rewrite H; [by left | by right].
Qed.

Lemma dt_hour_entries (s : list cell) :
  Forall (λ c, c = NaN ∨ ∃ h, c = Num (Qc_of_Z h) ∧ 0 ≤ h < 24) (dt_hour s).
Proof.
  unfold dt_hour. apply Forall_fmap, Forall_forall. intros c _. simpl.
  destruct c as [| | |t]; auto. right. eexists. split; [done|].
  apply Z.mod_pos_bound. lia.
Qed.

Lemma dropna_dt_hour (s : list cell) :
  Forall (λ c, c = NaN ∨ ∃ t, c = Time t) s →
  length (dropna (dt_hour s)) = length (dropna s).
Proof.
  unfold dropna, dt_hour. induction 1 as [|c s Hc Hs IH]; csimpl; [done|].
  destruct Hc as [-> | [t ->]].
  - rewrite !filter_cons_False by done. apply IH.
  - rewrite !filter_cons_True by done. csimpl. by rewrite IH.
Qed.

Lemma sorted_hours (vc : list (cell * nat)) (hs : list Z) :
  vc.*1 = (λ h, Num (Qc_of_Z h)) <$> hs → Sorted label_le vc → Sorted Z.le hs.
Proof.
  revert hs. induction vc as [|[k n] vc IH]; intros [|h hs] Heq Hs; csimpl in *;
    try discriminate; [constructor|].
  injection Heq as -> Heq. apply Sorted_inv in Hs as [Hs Hhd].
  constructor; [by apply IH|].
  destruct vc as [|[k' n'] vc], hs as [|h' hs]; csimpl in *; try discriminate;
    [constructor|].
  injection Heq as -> Heq. apply HdRel_inv in Hhd. constructor.
  unfold label_le in Hhd. simpl in Hhd. apply bool_decide_unpack in Hhd.
  by apply Z2Qc_inj_le.
Qed.

Lemma strictly_sorted (hs : list Z) :
  Sorted Z.le hs → NoDup hs → StronglySorted Z.lt hs.
Proof.
  intros Hs Hnd. apply (Sorted_StronglySorted Z.le) in Hs; try apply _.
  induction Hs as [|h hs Hs IH Hall]; [constructor|].
  apply NoDup_cons in Hnd as [Hh Hnd]. constructor; [by apply IH|].
  rewrite Forall_forall in Hall |- *. intros h' Hh'.
  specialize (Hall h' Hh'). assert (h ≠ h') by (by intros ->). lia.
Qed.



(** On the sample: one order in hour 10, one in hour 23. *)
Example hourly_chart_sample :
  data <$> (df ← load_and_process_data sample_dmy sample_iso sample_csv;
            (create_hourly_sop_tracker {| frame := df; page := [] |}).1)
  = Ok (Bar [Num (Qc_of_Z 10); Num (Qc_of_Z 23)] [1%nat; 1%nat]).
Proof. reflexivity. Qed.

(** ** The domain of a contact *)

Lemma class_domain_char (c : ascii) :
  existsb (item_match false c) [Word; Ch "."; Ch "-"] = domain_char c.
Proof.
  unfold domain_char. cbn [existsb item_match char_eqb].
  rewrite orb_false_r, orb_assoc. f_equal; [f_equal|]; apply bool_decide_ext; naive_solver.
Qed.

Lemma length_skip_domain (s : string) :
  (String.length (skip_domain s) ≤ String.length s)%nat.
Proof. induction s as [|c s IH]; simpl; [done|]. destruct (domain_char c); simpl; lia. Qed.

Lemma skip_domain_none (s : string) : take_domain s = EmptyString → skip_domain s = s.
Proof. destruct s as [|c s]; simpl; [done|]. by destruct (domain_char c). Qed.

Lemma substring_take_domain (s : string) :
  String.substring 0 (String.length s - String.length (skip_domain s)) s = take_domain s.
Proof.
  induction s as [|c s IH]; simpl; [done|]. destruct (domain_char c).
  - pose proof (length_skip_domain s).
    replace (S (String.length s) - String.length (skip_domain s))%nat
      with (S (String.length s - String.length (skip_domain s))) by lia.
    simpl. by rewrite IH.
  - simpl. by rewrite Nat.sub_diag.
Qed.

(** The greedy loop over the class of domain characters takes the whole
    run, when what follows the loop cannot fail. *)
Lemma plus_loop_domain {X} (fuel : nat) (s : string) (g : option string) (k : @cont X) :
  (String.length s < fuel)%nat →
  (∀ s' g', is_Some (k s' g')) →
  plus_loop fuel (rmatch false (Class [Word; Ch "."; Ch "-"])) s g k
  = if bool_decide (take_domain s = EmptyString) then None else k (skip_domain s) g.
Proof.
  intros Hfuel Hk. revert fuel Hfuel.
  induction s as [|c s IH]; intros [|fuel] Hfuel; simpl in Hfuel; try lia; [done|].
  cbn [plus_loop rmatch take_domain skip_domain]. rewrite class_domain_char.
  destruct (domain_char c); [|done].
  rewrite (bool_decide_true (_ < _)%nat) by (simpl; lia).
  rewrite IH by lia. rewrite (bool_decide_false (String _ _ = _)) by done.
  case_bool_decide as Hrun.
  - by rewrite (skip_domain_none s Hrun).
  - by destruct (Hk (skip_domain s) g) as [x ->].
Qed.

Lemma rmatch_email_re {X} (c : ascii) (s : string) (k : @cont X) :
  rmatch false email_re (String c s) None k
  = if bool_decide ("@"%char = c)
    then plus_loop (S (String.length s)) (rmatch false (Class [Word; Ch "."; Ch "-"])) s None
           (λ s' _, k s' (Some (String.substring 0 (String.length s - String.length s') s)))
    else None.
Proof. reflexivity. Qed.

Lemma search_email_re (s : string) :
  re_search false email_re s = Some <$> domain_after_at s.
Proof.
  induction s as [|c s IH]; [done|].
  cbn [re_search domain_after_at]. rewrite rmatch_email_re.
  rewrite (bool_decide_ext ("@"%char = c) (c = "@"%char)) by naive_solver.
  case_bool_decide as Hat; cbn [andb]; [|exact IH].
  rewrite plus_loop_domain; [|lia|by eauto].
  case_bool_decide as Hrun; cbn [negb]; [exact IH|].
  by rewrite substring_take_domain.
Qed.

Lemma take_domain_chars (s : string) :
  Forall (λ a, domain_char a = true) (String.list_ascii_of_string (take_domain s)).
Proof.
  induction s as [|c s IH]; simpl; [constructor|].
  destruct (domain_char c) eqn:Hc; simpl; [by constructor | constructor].
Qed.

Lemma domain_after_at_name (s d : string) :
  domain_after_at s = Some d → domain_name (Str d).
Proof.
  induction s as [|c s IH]; simpl; [done|].
  destruct (bool_decide (c = "@"%char)); cbn [andb]; [|exact IH].
  case_bool_decide as Hrun; cbn [negb]; [exact IH|].
  intros [= <-]. exists (take_domain s). split; [done|]. split; [done|].
  apply take_domain_chars.
Qed.

Lemma domain_after_at_none (s : string) :
  "@"%char ∉ String.list_ascii_of_string s → domain_after_at s = None.
Proof.
  induction s as [|c s IH]; simpl; [done|]. rewrite not_elem_of_cons. intros [Hc Hs].
  rewrite (bool_decide_false (c = _)) by done. by apply IH.
Qed.


Lemma extract_email_domain_name (c : cell) :
  is_text c → ∃ d, extract_email_domain c = Ok d ∧ domain_name d.
Proof.
  assert (Hu : domain_name (Str "Unknown")).
  { exists "Unknown". split; [done|]. split; [done|].
    repeat (apply Forall_cons_2; [by vm_compute|]). apply Forall_nil_2. }
  destruct c as [|s|q|t]; try done; intros _; unfold extract_email_domain; cbn [isna].
  - eauto.
  - rewrite search_email_re. destruct (domain_after_at s) as [d|] eqn:Hs; csimpl; [|eauto].
    eexists. split; [done|]. by apply (domain_after_at_name s).
Qed.



(** The scan on some contacts: the address in angle brackets, an ['@']
    with nothing behind it before the address, no address. *)
Example extract_email_domain_sample :
  extract_email_domain (Str "Jo <jo@shop-1.example.in>") = Ok (Str "shop-1.example.in") ∧
  extract_email_domain (Str "a@ b@c.d, e@f") = Ok (Str "c.d") ∧
  extract_email_domain (Str "call me @") = Ok (Str "Unknown").
Proof. repeat split; vm_compute; reflexivity. Qed.

(** ** The column of domains and its chart *)

Lemma mapM_extract_names (contact : list cell) :
  Forall is_text contact →
  ∃ domains, mapM extract_email_domain contact = Ok domains ∧
             Forall2 (λ c d, extract_email_domain c = Ok d) contact domains ∧
             Forall domain_name domains.
Proof.
  induction 1 as [|c contact Hc Hf [domains [IH [Hall Hnames]]]].
  - exists []. by repeat split.
  - destruct (extract_email_domain_name c Hc) as [d [Hd Hname]].
    exists (d :: domains). simpl. rewrite Hd. simpl. rewrite IH.
    split; [done|]. split; by constructor.
Qed.

Lemma analyze_tickets_frame (w : world) (contact domains : list cell) :
  columns (frame w) !! "Contact ID" = Some contact →
  mapM extract_email_domain contact = Ok domains →
  frame (analyze_tickets w).2 = with_email_domain (frame w) domains.
Proof.
  intros Hcontact Hdom. unfold analyze_tickets.
  rewrite getitem_bind, Hcontact.
  unfold mbind at 1, M_bind at 1, liftR at 1. rewrite Hdom.
  unfold mbind at 1, M_bind at 1, setitem at 1.
  match goal with |- frame (?m ?w').2 = _ =>
    assert (Hm : keeps_frame m) by auto 30 with frame; rewrite (Hm w') end.
  done.
Qed.

Lemma domain_name_not_missing (domains : list cell) :
  Forall domain_name domains → dropna domains = domains.
Proof.
  unfold dropna. induction 1 as [|d domains [x [-> _]] Hf IH]; [done|].
  rewrite filter_cons_True by done. by rewrite IH.
Qed.



#[global] Instance count_ge_trans : Transitive count_ge.
Proof. intros x y z. unfold count_ge. lia. Qed.

Lemma top_counts (vc : list (cell * nat)) (n : nat) (q : cell * nat) :
  Sorted count_ge vc → q ∈ vc → q.1 ∉ (take n vc).*1 →
  length (take n vc) = n ∧ Forall (λ m, (q.2 ≤ m)%nat) (take n vc).*2.
Proof.
  intros Hs Hq Hout.
  assert (Hdrop : q ∈ drop n vc).
  { rewrite <- (take_drop n vc) in Hq. apply elem_of_app in Hq as [Hq|Hq]; [|done].
    destruct Hout. by apply list_elem_of_fmap_2. }
  split.
  - rewrite length_take. apply Nat.min_l.
    destruct (decide (n ≤ length vc)%nat) as [|Hn]; [done|].
    rewrite drop_ge in Hdrop by lia. by apply elem_of_nil in Hdrop.
  - apply Forall_fmap, Forall_forall. intros p Hp.
    apply (Sorted_StronglySorted count_ge) in Hs.
    rewrite <- (take_drop n vc) in Hs.
    apply (StronglySorted_app_1_elem_of count_ge _ _ p q Hs Hp Hdrop).
Qed.

Lemma take_all_keys (vc : list (cell * nat)) (n : nat) :
  NoDup vc.*1 → (∀ p, p ∈ vc → p.1 ∈ (take n vc).*1) → take n vc = vc.
Proof.
  intros Hnd Hall. rewrite <- (take_drop n vc) at 2.
  destruct (drop n vc) as [|q rest] eqn:Hdrop; [by rewrite app_nil_r|].
  rewrite <- (take_drop n vc), fmap_app, Hdrop in Hnd.
  apply NoDup_app in Hnd as [_ [Hdisj _]].
  destruct (Hdisj q.1).
  - apply Hall. rewrite <- (take_drop n vc), Hdrop. apply elem_of_app. right. left.
  - csimpl. left.
Qed.

Lemma Sorted_ge_take (n : nat) (l : list nat) : Sorted ge l → Sorted ge (take n l).
Proof.
  intros Hs.
  apply (@Sorted_StronglySorted _ ge (λ x y z (Hxy : x ≥ y) (Hyz : y ≥ z), Nat.le_trans _ _ _ Hyz Hxy))
    in Hs.
  rewrite <- (take_drop n l) in Hs. apply StronglySorted_app_1_l in Hs.
  by apply StronglySorted_Sorted.
Qed.



(** ** The breach details *)

Lemma in_breach_series (df : DataFrame) :
  series_eq (Str <$> df_apply calculate_sla_status df) (Str "SLA Breached") = in_breach df.
Proof.
  unfold series_eq, in_breach. rewrite <- list_fmap_compose.
  apply Forall_fmap_ext_1, Forall_forall. intros s _. apply cell_eqb_Str.
Qed.

Lemma length_in_breach (df : DataFrame) : length (in_breach df) = index_len df.
Proof. unfold in_breach. by rewrite length_fmap, length_df_apply. Qed.

Lemma in_breach_lookup (df : DataFrame) (i : nat) :
  in_breach df !! i = Some true →
  calculate_sla_status (df_row df i) = "SLA Breached" ∧ (i < index_len df)%nat.
Proof.
  unfold in_breach, df_apply. rewrite !list_lookup_fmap.
  destruct (seq 0 (index_len df) !! i) as [j|] eqn:Hj; [|done].
  apply lookup_seq in Hj as [-> Hi]. csimpl. intros [= H].
  by apply bool_decide_eq_true in H.
Qed.

Lemma df_row_lookup (df : DataFrame) (i : nat) (k : string) (c : cell) :
  df_row df i !! k = Some c →
  ∃ col, columns df !! k = Some col ∧ c = default NaN (col !! i).
Proof.
  unfold df_row. rewrite lookup_fmap.
  destruct (columns df !! k) as [col|]; [|done]. intros [= <-]. eauto.
Qed.

Lemma breached_row (df : DataFrame) (cr dl cat : list cell) (i : nat) :
  wf_frame df →
  columns df !! Col.create = Some cr →
  columns df !! Col.delivered = Some dl →
  columns df !! Col.category = Some cat →
  Forall naive_or_missing cr →
  Forall naive_or_missing dl →
  in_breach df !! i = Some true →
  ∃ c d k, cr !! i = Some (naive c) ∧ dl !! i = Some (naive d) ∧ cat !! i = Some k ∧
           (Qc_of_Z (sla_threshold k) < total_seconds (d - c) / Qc_of_Z 3600)%Qc.
Proof.
  intros Hwf Hcr Hdl Hcat Hncr Hndl Hi.
  apply in_breach_lookup in Hi as [Hst Hi].
  assert (Hna : calculate_sla_status (df_row df i) ≠ "NA") by (by rewrite Hst).
  destruct (sla_status_defined _ Hna) as [c [d [k [Hc [Hd Hk]]]]].
  pose proof Hst as Hst'. unfold calculate_sla_status in Hst'.
  rewrite (sla_try_timestamps _ c d k Hc Hd Hk) in Hst'.
  apply df_row_lookup in Hc as [cr' [Hcr' Hc]]. rewrite Hcr in Hcr'. injection Hcr' as <-.
  apply df_row_lookup in Hd as [dl' [Hdl' Hd]]. rewrite Hdl in Hdl'. injection Hdl' as <-.
  apply df_row_lookup in Hk as [cat' [Hcat' Hk]]. rewrite Hcat in Hcat'. injection Hcat' as <-.
  destruct (cr !! i) as [c'|] eqn:Hci; [|done]. simpl in Hc. subst c'.
  destruct (dl !! i) as [d'|] eqn:Hdi; [|done]. simpl in Hd. subst d'.
  assert (Hki : is_Some (cat !! i)).
  { apply lookup_lt_is_Some. by rewrite (wf_frame_length df Col.category cat). }
  destruct Hki as [k' Hki]. rewrite Hki in Hk. simpl in Hk. subst k'.
  rewrite Forall_forall in Hncr, Hndl.
  destruct (Hncr _ (list_elem_of_lookup_2 _ _ _ Hci)) as [|[vc Hvc]]; [done|].
  destruct (Hndl _ (list_elem_of_lookup_2 _ _ _ Hdi)) as [|[vd Hvd]]; [done|].
  injection Hvc as ->. injection Hvd as ->.
  exists vc, vd, k. repeat split; try done.
  case_bool_decide as Hle; [done|]. apply Qcnot_le_lt in Hle.
  unfold elapsed_hours, wall_clock in Hle. simpl in Hle.
  by rewrite !Z.add_0_r in Hle.
Qed.

Lemma hours_between_selected (mask : list bool) (cr dl cat : list cell) :
  length cr = length mask → length dl = length mask → length cat = length mask →
  (∀ i, mask !! i = Some true →
        ∃ c d k, cr !! i = Some (naive c) ∧ dl !! i = Some (naive d) ∧ cat !! i = Some k ∧
                 (Qc_of_Z (sla_threshold k) < total_seconds (d - c) / Qc_of_Z 3600)%Qc) →
  ∃ hours,
    series_hours_between (mask_select mask dl) (mask_select mask cr) = Ok hours ∧
    Forall2 beyond_sla (mask_select mask cat) hours.
Proof.
  unfold series_hours_between.
  revert cr dl cat. induction mask as [|b mask IH]; intros cr dl cat Hlc Hld Hlk Hrows.
  - exists []. by split.
  - destruct cr as [|c cr], dl as [|d dl], cat as [|k cat]; try done.
    injection Hlc as Hlc. injection Hld as Hld. injection Hlk as Hlk.
    destruct (IH cr dl cat Hlc Hld Hlk) as [hours [Hhours Hall]].
    { intros i Hi. apply (Hrows (S i) Hi). }
    destruct b; [|by exists hours].
    destruct (Hrows 0%nat eq_refl) as [vc [vd [k' [[= ->] [[= ->] [[= <-] Hlt]]]]]].
    eexists (_ :: hours). cbn [mask_select zip zip_with mapM]. simpl.
    rewrite Hhours. simpl. split; [reflexivity|].
    constructor; [|done]. by eexists.
Qed.

Lemma sla_breach_details_unfold (df : DataFrame) (shown : list widget) :
  sla_breach_details {| frame := with_sla_status df; page := shown |} =
  (let breached_orders := df_loc (with_sla_status df) (in_breach df) in
   if bool_decide (0 < mask_sum (in_breach df))%nat then
     d ← liftR (df_getitem breached_orders Col.delivered);
     c ← liftR (df_getitem breached_orders Col.create);
     h ← liftR (series_hours_between d c);
     let breached_orders := df_setitem breached_orders Col.delivery_hours h in
     cols ← liftR (df_select breached_orders breach_columns);
     st (TableColumns cols)
   else st (Write [Str "No SLA breaches found"]))
    {| frame := with_sla_status df; page := shown |}.
Proof.
  unfold sla_breach_details. rewrite getitem_bind. cbn [frame].
  unfold with_sla_status at 1. cbn [columns df_setitem]. rewrite lookup_insert_eq.
  unfold mbind at 1, M_bind at 1, get_frame at 1. cbn [frame].
  rewrite in_breach_series, index_len_loc; [done|].
  by rewrite length_in_breach.
Qed.

(** With a row in breach, the breach details come to the selection of the
    columns of their table. *)
Lemma sla_breach_details_select (df : DataFrame) (shown : list widget) :
  wf_frame df →
  (∀ k col, k ∈ [Col.create; Col.delivered] → columns df !! k = Some col →
            Forall naive_or_missing col) →
  (0 < mask_sum (in_breach df))%nat →
  ∃ cr dl cat hours,
    columns df !! Col.create = Some cr ∧
    columns df !! Col.delivered = Some dl ∧
    columns df !! Col.category = Some cat ∧
    Forall2 beyond_sla (mask_select (in_breach df) cat) hours ∧
    sla_breach_details {| frame := with_sla_status df; page := shown |}
    = (cols ← liftR (df_select (df_setitem (df_loc (with_sla_status df) (in_breach df))
                                           Col.delivery_hours hours) breach_columns);
       st (TableColumns cols)) {| frame := with_sla_status df; page := shown |}.
Proof.
  intros Hwf Hnaive Hn.
  rewrite sla_breach_details_unfold. cbn zeta. rewrite bool_decide_true by done.
  assert (Hsome : ∃ i, in_breach df !! i = Some true).
  { unfold mask_sum in Hn.
    destruct (filter (λ b, b = true) (in_breach df)) as [|b l] eqn:Hf; [simpl in Hn; lia|].
    assert (Hb : b ∈ filter (λ b, b = true) (in_breach df)) by (rewrite Hf; left).
    apply list_elem_of_filter in Hb as [-> Hb].
    by apply list_elem_of_lookup_1 in Hb. }
  destruct Hsome as [i0 Hi0].
  destruct (in_breach_lookup df i0 Hi0) as [Hst0 _].
  assert (Hna : calculate_sla_status (df_row df i0) ≠ "NA") by (by rewrite Hst0).
  destruct (sla_status_defined _ Hna) as [c0 [d0 [k0 [Hc0 [Hd0 Hk0]]]]].
  apply df_row_lookup in Hc0 as [cr [Hcr _]].
  apply df_row_lookup in Hd0 as [dl [Hdl _]].
  apply df_row_lookup in Hk0 as [cat [Hcat _]].
  pose proof (length_in_breach df) as Hlen.
  assert (Hl : ∀ k col, columns df !! k = Some col → length col = length (in_breach df)).
  { intros k col Hk. rewrite Hlen. by apply (wf_frame_length df k). }
  destruct (hours_between_selected (in_breach df) cr dl cat) as [hours [Hhours Hall]];
    [by apply (Hl Col.create) | by apply (Hl Col.delivered) | by apply (Hl Col.category) | |].
  { intros i Hi. apply (breached_row df cr dl cat i); try done.
    - apply (Hnaive Col.create); [left | done].
    - apply (Hnaive Col.delivered); [right; left | done]. }
  assert (Hsel : ∀ k col, k ≠ Col.sla → columns df !! k = Some col →
            df_getitem (df_loc (with_sla_status df) (in_breach df)) k
            = Ok (mask_select (in_breach df) col)).
  { intros k col Hne Hk. apply df_getitem_loc. unfold with_sla_status. simpl.
    by rewrite lookup_insert_ne. }
  exists cr, dl, cat, hours. repeat (split; [done|]).
  unfold mbind at 1, M_bind at 1, liftR at 1. rewrite (Hsel _ dl) by done.
  unfold mbind at 1, M_bind at 1, liftR at 1. rewrite (Hsel _ cr) by done.
  unfold mbind at 1, M_bind at 1, liftR at 1. rewrite Hhours. reflexivity.
Qed.

Lemma breached_orders_lookup (df : DataFrame) (hours : list cell) (k : string) :
  k ≠ Col.sla → k ≠ Col.delivery_hours →
  columns (df_setitem (df_loc (with_sla_status df) (in_breach df)) Col.delivery_hours hours)
    !! k
  = mask_select (in_breach df) <$> columns df !! k.
Proof.
  intros Hne Hne'. cbn [columns df_setitem].
  rewrite lookup_insert_ne by done. rewrite columns_loc.
  unfold with_sla_status. cbn [columns df_setitem].
  by rewrite lookup_insert_ne.
Qed.

Lemma sla_breach_details_table (df : DataFrame) (shown : list widget)
    (ids cities : list cell) :
  wf_frame df →
  (∀ k col, k ∈ [Col.create; Col.delivered] → columns df !! k = Some col →
            Forall naive_or_missing col) →
  (0 < mask_sum (in_breach df))%nat →
  columns df !! Col.order_id = Some ids →
  columns df !! Col.city = Some cities →
  ∃ cols cat hours,
    sla_breach_details {| frame := with_sla_status df; page := shown |}
    = (Ok (), {| frame := with_sla_status df; page := shown ++ [TableColumns cols] |}) ∧
    dom cols = list_to_set breach_columns ∧
    map_Forall (λ _ col, length col = mask_sum (in_breach df)) cols ∧
    cols !! Col.order_id = Some (mask_select (in_breach df) ids) ∧
    cols !! Col.category = Some cat ∧
    cols !! Col.delivery_hours = Some hours ∧
    Forall2 beyond_sla cat hours.
Proof.
  intros Hwf Hnaive Hn Hids Hcities.
  destruct (sla_breach_details_select df shown Hwf Hnaive Hn)
    as [cr [dl [cat [hours [Hcr [Hdl [Hcat [Hall ->]]]]]]]].
  pose proof (length_in_breach df) as Hlen.
  assert (Hget : ∀ k col, k ≠ Col.sla → k ≠ Col.delivery_hours → columns df !! k = Some col →
            df_getitem (df_setitem (df_loc (with_sla_status df) (in_breach df))
                                   Col.delivery_hours hours) k
            = Ok (mask_select (in_breach df) col)).
  { intros k col Hne Hne' Hk. unfold df_getitem.
    by rewrite breached_orders_lookup, Hk. }
  unfold breach_columns. cbn [df_select].
  rewrite (Hget Col.order_id ids), (Hget Col.category cat), (Hget Col.create cr),
    (Hget Col.delivered dl), (Hget Col.city cities) by done.
  unfold df_getitem at 1. cbn [columns df_setitem]. rewrite lookup_insert_eq.
  cbn [mbind result_bind]. unfold mbind, M_bind, liftR, st. cbn [frame page].
  eexists _, (mask_select (in_breach df) cat), hours. split; [reflexivity|].
  assert (Hsum : ∀ k col, columns df !! k = Some col →
            length (mask_select (in_breach df) col) = mask_sum (in_breach df)).
  { intros k col Hk. apply length_mask_select. rewrite Hlen. symmetry.
    by apply (wf_frame_length df k). }
  split; [by rewrite !dom_insert_L, dom_empty_L|].
  split.
  { repeat (apply map_Forall_insert_2;
              [first [ by eapply Hsum
                     | rewrite <- (Forall2_length _ _ _ Hall); by eapply Hsum ] |]).
    apply map_Forall_empty. }
  split; [apply lookup_insert_eq|].
  split; [rewrite lookup_insert_ne by done; apply lookup_insert_eq|].
  split; [|done].
  repeat (rewrite lookup_insert_ne by done). apply lookup_insert_eq.
Qed.

(** X16.  The breach details at the end of [main], on the table with its
    SLA status and with date columns free of zones.  Without a row in
    breach only the notice is shown, and no column is read.  With rows in
    breach a table of six columns is shown that has exactly these rows,
    each with a delivery time beyond the threshold of its category. *)
Theorem breach_details (df : DataFrame) (shown : list widget) :
  wf_frame df →
  (∀ k col, k ∈ [Col.create; Col.delivered] → columns df !! k = Some col →
            Forall naive_or_missing col) →
  let w := {| frame := with_sla_status df; page := shown |} in
  let n := mask_sum (in_breach df) in
  (n = 0%nat →
   sla_breach_details w
   = (Ok (), {| frame := with_sla_status df;
                page := shown ++ [Write [Str "No SLA breaches found"]] |})) ∧
  ((0 < n)%nat →
   ∀ ids cities,
     columns df !! Col.order_id = Some ids →
     columns df !! Col.city = Some cities →
     ∃ cols cat hours,
       sla_breach_details w
       = (Ok (), {| frame := with_sla_status df; page := shown ++ [TableColumns cols] |}) ∧
       dom cols = list_to_set breach_columns ∧
       map_Forall (λ _ col, length col = n) cols ∧
       cols !! Col.order_id = Some (mask_select (in_breach df) ids) ∧
       cols !! Col.category = Some cat ∧
       cols !! Col.delivery_hours = Some hours ∧
       Forall2 beyond_sla cat hours).
Proof.
  intros Hwf Hnaive w n. unfold w. split.
  - intros Hn. rewrite sla_breach_details_unfold. cbn zeta. fold n. rewrite Hn.
    rewrite bool_decide_false by lia. reflexivity.
  - intros Hn ids cities Hids Hcities.
    by apply (sla_breach_details_table df shown ids cities).
Qed.

Lemma sample_orders_naive (k : string) (col : list cell) :
  k ∈ [Col.create; Col.delivered] → columns sample_orders_with_ids !! k = Some col →
  Forall naive_or_missing col.
Proof.
  rewrite !elem_of_cons, elem_of_nil. intros [-> | [-> | []]] [= <-];
    repeat apply Forall_cons_2; try apply Forall_nil_2;
    first [by left | right; by eexists].
Defined.

Lemma breach_details_witness :
  let w := {| frame := with_sla_status sample_orders_with_ids; page := [] |} in
  let n := mask_sum (in_breach sample_orders_with_ids) in
  (n = 0%nat →
   sla_breach_details w
   = (Ok (), {| frame := with_sla_status sample_orders_with_ids;
                page := [] ++ [Write [Str "No SLA breaches found"]] |})) ∧
  ((0 < n)%nat →
   ∀ ids cities,
     columns sample_orders_with_ids !! Col.order_id = Some ids →
     columns sample_orders_with_ids !! Col.city = Some cities →
     ∃ cols cat hours,
       sla_breach_details w
       = (Ok (), {| frame := with_sla_status sample_orders_with_ids;
                    page := [] ++ [TableColumns cols] |}) ∧
       dom cols = list_to_set breach_columns ∧
       map_Forall (λ _ col, length col = n) cols ∧
       cols !! Col.order_id = Some (mask_select (in_breach sample_orders_with_ids) ids) ∧
       cols !! Col.category = Some cat ∧
       cols !! Col.delivery_hours = Some hours ∧
       Forall2 beyond_sla cat hours).
Proof.
  apply (breach_details sample_orders_with_ids []).
  - apply (bool_decide_unpack _). vm_compute. exact I.
  - apply sample_orders_naive.
Defined.

(** On the sample orders the second order, late by a nanosecond, is the
    one in breach. *)
Example sample_orders_in_breach :
  in_breach sample_orders_with_ids = [false; true; false; false].
Proof. vm_compute. reflexivity. Qed.

(** X17.  A table that lacks the order identifiers or the cities is shown
    its breach details all the same when no order is in breach; with an
    order in breach the selection of the columns raises the lookup failure
    for a column that the table lacks, and nothing is shown. *)
Theorem breach_details_missing_column (df : DataFrame) (shown : list widget) (k : string) :
  wf_frame df →
  (∀ k col, k ∈ [Col.create; Col.delivered] → columns df !! k = Some col →
            Forall naive_or_missing col) →
  k ∈ [Col.order_id; Col.city] →
  columns df !! k = None →
  let w := {| frame := with_sla_status df; page := shown |} in
  if bool_decide (0 < mask_sum (in_breach df))%nat
  then ∃ k', sla_breach_details w = (Raise (KeyError k'), w) ∧ columns df !! k' = None
  else (sla_breach_details w).1 = Ok ().
Proof.
  intros Hwf Hnaive Hk Hmissing w. unfold w. case_bool_decide as Hn.
  - destruct (sla_breach_details_select df shown Hwf Hnaive Hn)
      as [cr [dl [cat [hours [Hcr [Hdl [Hcat [Hall ->]]]]]]]].
    unfold breach_columns. cbn [df_select]. unfold df_getitem.
    rewrite (breached_orders_lookup df hours Col.order_id),
      (breached_orders_lookup df hours Col.category),
      (breached_orders_lookup df hours Col.create),
      (breached_orders_lookup df hours Col.delivered),
      (breached_orders_lookup df hours Col.city) by done.
    rewrite Hcat, Hcr, Hdl.
    cbn [columns df_setitem]. rewrite lookup_insert_eq.
    destruct (columns df !! Col.order_id) as [ids|] eqn:Hids.
    + assert (Hcity : columns df !! Col.city = None).
      { revert Hk. rewrite !elem_of_cons, elem_of_nil.
        intros [-> | [-> | []]]; [congruence | done]. }
      rewrite Hcity. exists Col.city. by split.
    + exists Col.order_id. by split.
  - rewrite sla_breach_details_unfold. cbn zeta. by rewrite bool_decide_false.
Qed.

Lemma sample_orders_dates (k : string) (col : list cell) :
  k ∈ [Col.create; Col.delivered] → columns sample_orders !! k = Some col →
  Forall naive_or_missing col.
Proof.
  rewrite !elem_of_cons, elem_of_nil. intros [-> | [-> | []]] [= <-];
    repeat apply Forall_cons_2; try apply Forall_nil_2;
    first [by left | right; by eexists].
Defined.

Lemma breach_details_missing_column_witness :
  ∃ k', sla_breach_details {| frame := with_sla_status sample_orders; page := [] |}
        = (Raise (KeyError k'), {| frame := with_sla_status sample_orders; page := [] |}) ∧
        columns sample_orders !! k' = None.
Proof.
  apply (breach_details_missing_column sample_orders [] Col.order_id).
  - apply (bool_decide_unpack _). vm_compute. exact I.
  - apply sample_orders_dates.
  - left.
  - reflexivity.
Defined.

(** ** The run of the order dashboard *)

Lemma bind_ok {A B} (m : M A) (f : A → M B) (w w' : world) (a : A) :
  m w = (Ok a, w') → (m ≫= f) w = f a w'.
Proof. intros H. unfold mbind, M_bind. by rewrite H. Qed.

Lemma getitem_run (w : world) (k : string) (col : list cell) :
  columns (frame w) !! k = Some col → getitem k w = (Ok col, w).
Proof. intros H. unfold getitem, df_getitem. by rewrite H. Qed.

Lemma page_grows {A} (m : M A) (w : world) :
  table_driven m → ∃ shown, page (m w).2 = page w ++ shown.
Proof. intros Hm. destruct (Hm w w eq_refl) as [_ [_ [shown [H _]]]]. eauto. Qed.

Lemma table_driven_sla_charts : table_driven create_sla_charts.
Proof. unfold create_sla_charts. auto 40 with frame. Qed.

Lemma table_driven_breach_details : table_driven sla_breach_details.
Proof. unfold sla_breach_details. auto 40 with frame. Qed.

Lemma table_driven_hourly : table_driven create_hourly_sop_tracker.
Proof. unfold create_hourly_sop_tracker. auto with frame. Qed.

Lemma table_driven_status_tracker : table_driven create_ticket_status_tracker.
Proof. unfold create_ticket_status_tracker. auto with frame. Qed.

Lemma table_driven_category_summary : table_driven create_category_summary.
Proof. unfold create_category_summary. auto with frame. Qed.

Lemma table_driven_city_summary : table_driven create_city_summary.
Proof. unfold create_city_summary. auto with frame. Qed.

#[local] Hint Resolve table_driven_sla_summary table_driven_sla_charts
  table_driven_breach_details table_driven_hourly table_driven_status_tracker
  table_driven_category_summary table_driven_city_summary table_driven_for_fold : frame.

Lemma mask_sum_le {A} (p : A → bool) (l : list A) : (mask_sum (p <$> l) ≤ length l)%nat.
Proof. rewrite mask_sum_fmap. apply length_filter. Qed.

Lemma mask_sum_series_eq (s : list cell) (v : string) :
  mask_sum (series_eq s (Str v)) = length (filter (λ c, c = Str v) s).
Proof.
  unfold series_eq. rewrite mask_sum_fmap. f_equal. apply list_filter_iff.
  intros c. rewrite cell_eqb_true. split; [by intros [? _] | by intros ->].
Qed.

Lemma mask_sum_active (s : list cell) :
  mask_sum (series_isin s [Str "In-progress"; Str "Accepted"])
  = length (filter active_status s).
Proof.
  unfold series_isin. rewrite mask_sum_fmap. f_equal. apply list_filter_iff.
  intros c. cbn [existsb]. rewrite orb_false_r, orb_true_iff, !cell_eqb_true.
  unfold active_status. split.
  - intros [[-> _] | [-> _]]; [by left | by right].
  - intros [-> | ->]; [by left | by right].
Qed.

Lemma completed_and_active (s : list cell) :
  (length (filter (λ c, c = Str "Completed") s) + length (filter active_status s)
   ≤ length s)%nat.
Proof.
  induction s as [|c s IH]; [done|].
  destruct (decide (c = Str "Completed")) as [->|Hc].
  - rewrite filter_cons_True by done. rewrite (filter_cons_False active_status).
    + simpl. lia.
    + by intros [|].
  - rewrite filter_cons_False by done.
    destruct (decide (active_status c)).
    + rewrite filter_cons_True by done. simpl. lia.
    + rewrite filter_cons_False by done. simpl. lia.
Qed.

Lemma completion_rate_bounds (c n : nat) (r : Qc) :
  (c ≤ n)%nat → completion_rate c n = Some r → (Qc_of_Z 0 ≤ r)%Qc ∧ (r ≤ Qc_of_Z 100)%Qc.
Proof.
  unfold completion_rate. intros Hc. case_bool_decide as Hn; [done|]. intros [= <-].
  assert (Hpos : (0 < inject_Z (Z.of_nat n))%Q).
  { change 0%Q with (inject_Z 0). rewrite <- Zlt_Qlt. lia. }
  assert (Hy : (this (Qc_of_Z (Z.of_nat c) / Qc_of_Z (Z.of_nat n) * Qc_of_Z 100)%Qc
                == inject_Z (Z.of_nat c * 100) / inject_Z (Z.of_nat n))%Q).
  { unfold Qcmult, Qcdiv, Qcinv, Qcmult. simpl this.
    repeat (rewrite ?Qred_correct; simpl this).
    rewrite inject_Z_mult. change (inject_Z 100) with (100 # 1)%Q. field.
    intros H. rewrite H in Hpos. by apply Qlt_irrefl in Hpos. }
  unfold Qcle. rewrite Hy. simpl this. split.
  - apply Qle_shift_div_l; [done|]. rewrite Qmult_0_l.
    change 0%Q with (inject_Z 0). rewrite <- Zle_Qle. lia.
  - apply Qle_shift_div_r; [done|]. rewrite <- inject_Z_mult, <- Zle_Qle. lia.
Qed.

Lemma mask_mean_series_eq (s : list cell) (v : string) :
  (λ x, x * Qc_of_Z 100)%Qc <$> mask_mean (series_eq s (Str v))
  = completion_rate (length (filter (λ c, c = Str v) s)) (length s).
Proof.
  unfold mask_mean, completion_rate. rewrite mask_sum_series_eq.
  assert (Hlen : length (series_eq s (Str v)) = length s)
    by (unfold series_eq; by rewrite length_fmap).
  rewrite Hlen. by case_bool_decide.
Qed.



Lemma show_summaries_run (summaries : list (cell * DataFrame)) (w : world) :
  for_fold (λ _ (item : cell * DataFrame),
              st (Write [item.1; Str " SLA Performance"]);; st (Table item.2))
           () summaries w
  = (Ok (), {| frame := frame w; page := page w ++ summary_widgets summaries |}).
Proof.
  revert w. induction summaries as [|item summaries IH]; intros w.
  - unfold summary_widgets. simpl. rewrite app_nil_r. by destruct w.
  - cbn [for_fold]. erewrite bind_ok; [|reflexivity]. rewrite IH.
    unfold summary_widgets. cbn [frame page fmap list_fmap concat].
    by rewrite <- !app_assoc.
Qed.

Lemma numbers_of_numeric (s : list cell) :
  Forall numeric s → ∃ qs, numbers_of s = Ok qs.
Proof.
  induction 1 as [|c s [-> | [q ->]] Hs [qs IH]]; simpl; [eauto..|].
  rewrite IH. simpl. eauto.
Qed.

Lemma create_sla_charts_run (df : DataFrame) (cat : list cell) :
  columns df !! Col.category = Some cat →
  ∃ figs,
    (create_sla_charts {| frame := df; page := [] |}).1 = Ok figs ∧
    ∀ shown, create_sla_charts {| frame := with_sla_status df; page := shown |}
             = (Ok figs, {| frame := with_sla_status df; page := shown |}).
Proof.
  intros Hcat.
  assert (Hrun : ∃ figs, ∀ p df', with_sla_status df' = with_sla_status df →
            create_sla_charts {| frame := df'; page := p |}
            = (Ok figs, {| frame := with_sla_status df; page := p |})).
  { eexists. intros p df' Hdf'. unfold create_sla_charts.
    erewrite (bind_ok get_frame); [|reflexivity].
    erewrite (bind_ok (setitem _ _)); [|reflexivity].
    cbn [frame page]. fold (with_sla_status df'). rewrite Hdf'.
    erewrite (bind_ok (getitem _)); [|apply getitem_run; apply lookup_insert_eq].
    erewrite (bind_ok get_frame); [|reflexivity].
    erewrite (bind_ok (liftR _));
      [|unfold liftR; cbn [frame]; erewrite df_getitem_loc; [reflexivity|];
        apply lookup_insert_eq].
    erewrite (bind_ok (getitem _));
      [|apply getitem_run; cbn [frame with_sla_status df_setitem columns];
        rewrite lookup_insert_ne by done; exact Hcat].
    erewrite (bind_ok (getitem _)); [|apply getitem_run; apply lookup_insert_eq].
    reflexivity. }
  destruct Hrun as [figs Hfigs]. exists figs. split.
  - by rewrite (Hfigs [] df eq_refl).
  - intros shown. apply Hfigs, with_sla_status_idemp.
Qed.

Lemma chart_run (m : M Figure) (w : world) (fig : Figure) :
  reads_only m → table_driven m →
  (m {| frame := frame w; page := [] |}).1 = Ok fig → m w = (Ok fig, w).
Proof.
  intros Hr Ht Hfig.
  destruct (Ht w {| frame := frame w; page := [] |} eq_refl) as [H1 _].
  specialize (Hr w). destruct (m w) as [r w']. simpl in *. congruence.
Qed.

Lemma reads_only_hourly : reads_only create_hourly_sop_tracker.
Proof. unfold create_hourly_sop_tracker. auto with frame. Qed.

Lemma loaded_table (to_datetime_dmy to_datetime_iso : cell → option Timestamp)
    (csv : DataFrame) :
  wf_frame csv →
  Forall (λ k, is_Some (columns csv !! k)) loader_columns →
  (∀ c t, to_datetime_dmy c = Some t → tzinfo t = None) →
  ∃ df,
    load_and_process_data to_datetime_dmy to_datetime_iso csv = Ok df ∧
    wf_frame df ∧
    index_len df = index_len csv ∧
    (∀ k, k ∉ loader_written → columns df !! k = columns csv !! k) ∧
    is_Some (columns df !! Col.hour) ∧
    (∀ k col, k ∈ [Col.create; Col.delivered] → columns df !! k = Some col →
              Forall naive_or_missing col).
Proof.
  intros Hwf Hcols Hdmy.
  destruct (loader_columns_present csv Hcols) as [c [d [s [r [x [st H]]]]]].
  destruct H as [Hc [Hd [Hs [Hr [Hx Hst]]]]].
  rewrite (load_and_process_data_ok _ _ csv c d s r x st) by done.
  eexists. split; [reflexivity|]. cbn [columns index_len].
  split; [|split; [done|split; [|split]]].
  - unfold wf_frame in *. cbn [columns index_len].
    pose proof (wf_frame_length csv _ _ Hwf Hc).
    pose proof (wf_frame_length csv _ _ Hwf Hd).
    pose proof (wf_frame_length csv _ _ Hwf Hs).
    pose proof (wf_frame_length csv _ _ Hwf Hr).
    pose proof (wf_frame_length csv _ _ Hwf Hx).
    pose proof (wf_frame_length csv _ _ Hwf Hst).
    repeat (apply map_Forall_insert_2;
            [unfold series_map, dt_hour, dt_tz_localize_none;
             by rewrite ?length_fmap, ?length_to_datetime|]).
    done.
  - intros k Hk. unfold loader_written in Hk.
    rewrite !not_elem_of_cons in Hk. destruct Hk as [? [? [? [? [? [? [? _]]]]]]].
    by rewrite !lookup_insert_ne.
  - rewrite lookup_insert_ne, lookup_insert_eq by done. eauto.
  - intros k col. rewrite !elem_of_cons, elem_of_nil. intros [-> | [-> | []]].
    + repeat (rewrite lookup_insert_ne by done). rewrite lookup_insert_eq.
      intros [= <-]. unfold to_datetime. apply Forall_fmap, Forall_forall.
      intros e _. simpl. destruct (to_datetime_dmy e) as [[v z]|] eqn:He; [|by left].
      apply Hdmy in He. simpl in He. subst z. right. by eexists.
    + repeat (rewrite lookup_insert_ne by done). rewrite lookup_insert_eq.
      intros [= <-]. apply Forall_dt_tz_localize_none.
Qed.

(** Membership in a list of column names given in full. *)
Ltac in_list := apply (bool_decide_unpack _); vm_compute; exact I.


Lemma sample_dmy_naive (c : cell) (t : Timestamp) :
  sample_dmy c = Some t → tzinfo t = None.
Proof. unfold sample_dmy. repeat case_decide; intros [= <-]; reflexivity. Defined.

Lemma sample_order_values (v : list cell) :
  columns sample_csv_with_ids !! Col.total_value = Some v → Forall numeric v.
Proof.
  intros [= <-]. repeat apply Forall_cons_2; try apply Forall_nil_2;
    first [by left | right; by eexists].
Defined.

Lemma sample_dashboard_columns :
  Forall (λ k, is_Some (columns sample_csv_with_ids !! k)) dashboard_columns.
Proof. repeat apply Forall_cons_2; try apply Forall_nil_2; by eexists. Defined.


(** ** The run of the ticket dashboard *)

Lemma prefix_append (p x : string) :
  String.prefix p x = true ↔ ∃ rest, x = p +:+ rest.
Proof.
  revert x. induction p as [|a p IH]; intros x.
  - split; [intros _; by exists x | intros _; by destruct x].
  - destruct x as [|b x]; simpl; [split; [done | by intros [? ?]]|].
    destruct (ascii_dec a b) as [->|Hne].
    + rewrite IH. split; intros [rest Hrest]; exists rest;
        [by rewrite Hrest | by injection Hrest].
    + split; [done|]. intros [rest [= ? _]]. done.
Qed.

Lemma mask_sum_str_startswith (subject : list cell) :
  mask_sum (str_startswith "Fwd:" false subject) = length (filter forwarded subject).
Proof.
  unfold str_startswith. rewrite mask_sum_fmap.
  induction subject as [|c subject IH]; [done|].
  assert (Hc : match c with Str x => String.prefix "Fwd:" x | _ => false end = true
               ↔ forwarded c).
  { unfold forwarded. destruct c as [|x|q|t]; try (split; [done | by intros [? ?]]).
    rewrite prefix_append. split; intros [rest Hrest]; exists rest; congruence. }
  destruct (decide (forwarded c)) as [Hf|Hf].
  - rewrite (filter_cons_True forwarded) by done.
    rewrite filter_cons_True by (by apply Hc). simpl. by rewrite IH.
  - rewrite (filter_cons_False forwarded) by done.
    rewrite filter_cons_False by (by rewrite Hc). done.
Qed.



(** ** The chart of the overall SLA performance *)

Lemma breached_among_valid (sts : list string) :
  occurrences (Str "SLA Breached") (Str <$> filter (λ s, s ≠ "NA") sts)
  = mask_sum ((λ s, bool_decide (s = "SLA Breached")) <$> sts).
Proof.
  rewrite mask_sum_fmap. unfold occurrences.
  induction sts as [|s sts IH]; [done|].
  destruct (decide (s = "SLA Breached")) as [->|Hs].
  - rewrite (filter_cons_True (λ s, s ≠ "NA")) by done. rewrite fmap_cons.
    rewrite (filter_cons_True (λ c, c = Str "SLA Breached")) by done.
    rewrite (filter_cons_True (λ x, bool_decide (x = "SLA Breached") = true)) by done.
    cbn [length]. by rewrite IH.
  - rewrite (filter_cons_False (λ x, bool_decide (x = "SLA Breached") = true))
      by (by rewrite bool_decide_eq_true).
    destruct (decide (s = "NA")) as [->|Hna].
    + by rewrite (filter_cons_False (λ s, s ≠ "NA")) by (intros H; by apply H).
    + rewrite (filter_cons_True (λ s, s ≠ "NA")) by done. rewrite fmap_cons.
      rewrite (filter_cons_False (λ c, c = Str "SLA Breached")) by congruence. done.
Qed.

(** X21.  The chart of the overall SLA performance has one entry of weight
    one for each row with a status other than ['NA'], named by the status
    of the row: its names are ['Within SLA'] and ['SLA Breached'] only, and
    the entries named ['SLA Breached'] are as many as the rows listed in
    the breach details. *)
Theorem overall_sla_pie (w : world) (cat : list cell) :
  columns (frame w) !! Col.category = Some cat →
  ∃ figs names,
    (create_sla_charts w).1 = Ok figs ∧
    data figs.1 = Pie names ((λ _, 1%nat) <$> names) ∧
    names = Str <$> filter (λ s, s ≠ "NA") (df_apply calculate_sla_status (frame w)) ∧
    Forall (λ c, c = Str "Within SLA" ∨ c = Str "SLA Breached") names ∧
    occurrences (Str "SLA Breached") names = mask_sum (in_breach (frame w)).
Proof.
  intros Hcat. destruct w as [df p]. cbn [frame] in *.
  eexists _, (Str <$> filter (λ s, s ≠ "NA") (df_apply calculate_sla_status df)).
  split; [|split; [|split; [done|split]]].
  - unfold create_sla_charts.
    erewrite (bind_ok get_frame); [|reflexivity].
    erewrite (bind_ok (setitem _ _)); [|reflexivity].
    cbn [frame page]. fold (with_sla_status df).
    erewrite (bind_ok (getitem _)); [|apply getitem_run; apply lookup_insert_eq].
    erewrite (bind_ok get_frame); [|reflexivity].
    erewrite (bind_ok (liftR _));
      [|unfold liftR; cbn [frame]; erewrite df_getitem_loc;
        [rewrite select_series_ne_str; reflexivity|]; apply lookup_insert_eq].
    erewrite (bind_ok (getitem _));
      [|apply getitem_run; cbn [frame with_sla_status df_setitem columns];
        rewrite lookup_insert_ne by done; exact Hcat].
    erewrite (bind_ok (getitem _)); [|apply getitem_run; apply lookup_insert_eq].
    reflexivity.
  - reflexivity.
  - apply Forall_fmap, Forall_forall. intros s Hs. simpl.
    apply list_elem_of_filter in Hs as [Hna Hs].
    unfold df_apply in Hs. apply list_elem_of_fmap in Hs as [i [-> _]].
    destruct (calculate_sla_status_cases (df_row df i)) as [H | [-> | ->]]; auto. done.
  - apply breached_among_valid.
Qed.

Lemma overall_sla_pie_witness :
  ∃ figs names,
    (create_sla_charts sample_world).1 = Ok figs ∧
    data figs.1 = Pie names ((λ _, 1%nat) <$> names) ∧
    names = Str <$> filter (λ s, s ≠ "NA")
                      (df_apply calculate_sla_status (frame sample_world)) ∧
    Forall (λ c, c = Str "Within SLA" ∨ c = Str "SLA Breached") names ∧
    occurrences (Str "SLA Breached") names = mask_sum (in_breach (frame sample_world)).
Proof.
  apply (overall_sla_pie sample_world [Str "F&B"; Str "F&B"; Str "Grocery"; NaN]).
  reflexivity.
Defined.

(** On the sample orders: an order within its SLA, one in breach, and the
    order without category, which falls under the 120 hours. *)
Example overall_sla_pie_sample :
  data <$> (fst <$> (create_sla_charts sample_world).1)
  = Ok (Pie [Str "Within SLA"; Str "SLA Breached"; Str "Within SLA"]
            [1%nat; 1%nat; 1%nat]).
Proof. vm_compute. reflexivity. Qed.
